(** * Context attestation extension: background worker and content script

    A shallow embedding of [background.js] (signal collection, consistency
    scoring, context hashing, token issuance, the VERIFY_CONTEXT handler) and
    of the content script (verification loop, failure reporting, fetch
    interceptor), with the properties of the specification stated on it.

    JavaScript numbers are IEEE 754 binary64 values: they are modelled by the
    kernel's primitive [float].  Objects whose property order matters (the
    site tables, the object that is serialised and hashed) are association
    lists; the [headers] object of a request, which is only used as a map, is
    a [gmap].  Exceptions and rejected promises are an error monad that
    carries the [message] of the error. *)

From stdpp Require Import gmap strings.
From Stdlib Require Import ZArith List Bool Ascii String Lia.
From Stdlib Require Import Floats.PrimFloat Floats.SpecFloat Floats.FloatOps.
Import ListNotations.

Local Open Scope string_scope.

(** A decimal literal such as [0.7] denotes the nearest binary64 value, here
    as in JavaScript. *)
Set Warnings "-inexact-float".

(** ** JavaScript built-ins used by the sources *)

Module JS.

(** [s.includes(sub)]: literal substring test. *)
Fixpoint includes (s sub : string) : bool :=
  String.prefix sub s ||
  match s with
  | EmptyString => false
  | String _ s' => includes s' sub
  end.

Fixpoint drop (n : nat) (s : string) : string :=
  match n, s with
  | O, _ => s
  | S _, EmptyString => EmptyString
  | S n', String _ s' => drop n' s'
  end.

(** [s.replace(pat, repl)] with a string pattern: only the first occurrence
    is replaced. *)
Fixpoint replace (s pat repl : string) : string :=
  if String.prefix pat s then repl ++ drop (String.length pat) s
  else match s with
       | EmptyString => EmptyString
       | String c s' => String c (replace s' pat repl)
       end.

(** Exceptions and rejected promises: [Throws m] is an [Error] whose
    [message] is [m]. *)
Inductive outcome (A : Type) : Type :=
| Returns (a : A)
| Throws (message : string).
Arguments Returns {A} a.
Arguments Throws {A} message.

Definition bind {A B : Type} (x : outcome A) (k : A -> outcome B) : outcome B :=
  match x with
  | Returns a => k a
  | Throws m => Throws m
  end.

(** [try { x } catch (error) { h error.message }] *)
Definition try_catch {A : Type} (x : outcome A) (h : string -> outcome A) : outcome A :=
  match x with
  | Returns a => Returns a
  | Throws m => h m
  end.

End JS.

Import JS.

(** The sources thread errors through [await]; stdpp's monad notation
    [x ← c; k] reads as [const x = await c; k]. *)
#[global] Instance outcome_ret : MRet outcome := @Returns.
#[global] Instance outcome_bind : MBind outcome := fun A B k x => bind x k.

(** ** SHA-256 (FIPS 180-4), the digest behind [crypto.subtle.digest]

    Bytes and 32-bit words are [Z]; additions wrap modulo [2^32]. *)

Module SHA256.
Local Open Scope list_scope.
Local Open Scope Z_scope.

Definition wrap32 (x : Z) : Z := x mod 2 ^ 32.
Definition add32 (x y : Z) : Z := wrap32 (x + y).
Definition not32 (x : Z) : Z := 2 ^ 32 - 1 - x.
Definition rotr (n x : Z) : Z := Z.lor (Z.shiftr x n) (wrap32 (Z.shiftl x (32 - n))).
Definition shr (n x : Z) : Z := Z.shiftr x n.

Definition Ch (x y z : Z) : Z := Z.lxor (Z.land x y) (Z.land (not32 x) z).
Definition Maj (x y z : Z) : Z :=
  Z.lxor (Z.lxor (Z.land x y) (Z.land x z)) (Z.land y z).
Definition Sigma0 (x : Z) : Z := Z.lxor (Z.lxor (rotr 2 x) (rotr 13 x)) (rotr 22 x).
Definition Sigma1 (x : Z) : Z := Z.lxor (Z.lxor (rotr 6 x) (rotr 11 x)) (rotr 25 x).
Definition sigma0 (x : Z) : Z := Z.lxor (Z.lxor (rotr 7 x) (rotr 18 x)) (shr 3 x).
Definition sigma1 (x : Z) : Z := Z.lxor (Z.lxor (rotr 17 x) (rotr 19 x)) (shr 10 x).

(** The constants are defined as the standard defines them, from the
    first primes: the first 32 bits of the fractional part of their cube
    roots for the round constants, of their square roots for the initial
    hash value. *)
Definition is_prime (n : Z) : bool :=
  (1 <? n) && forallb (fun d => negb (n mod d =? 0)) (map Z.of_nat (seq 2 (Z.to_nat n - 2))).

Definition primes_below (n : nat) : list Z :=
  filter is_prime (map Z.of_nat (seq 0 n)).

(** The largest [r] below [2^bits] whose cube is at most [n]. *)
Fixpoint cube_root (bits : nat) (n r : Z) : Z :=
  match bits with
  | O => r
  | S bits' =>
      let r' := r + 2 ^ Z.of_nat bits' in
      cube_root bits' n (if r' * r' * r' <=? n then r' else r)
  end.

Definition K : list Z :=
  Eval vm_compute in
    map (fun p => wrap32 (cube_root 36 (p * 2 ^ 96) 0)) (primes_below 312).

Definition H0 : list Z :=
  Eval vm_compute in
    map (fun p => wrap32 (Z.sqrt (p * 2 ^ 64))) (primes_below 20).

(** Big-endian bytes of [x], [n] of them. *)
Fixpoint be_bytes (n : nat) (x : Z) : list Z :=
  match n with
  | O => []
  | S n' => (Z.shiftr x (8 * Z.of_nat n')) mod 256 :: be_bytes n' x
  end.

(** The message, the byte [0x80], zeros up to 56 modulo 64, and the bit
    length on 8 bytes. *)
Definition pad (msg : list Z) : list Z :=
  let len := Z.of_nat (List.length msg) in
  let zeros := Z.to_nat ((55 - len) mod 64) in
  msg ++ 0x80 :: repeat 0 zeros ++ be_bytes 8 (8 * len).

Fixpoint words (fuel : nat) (bs : list Z) : list Z :=
  match fuel, bs with
  | S fuel', b0 :: b1 :: b2 :: b3 :: rest =>
      (b0 * 2 ^ 24 + b1 * 2 ^ 16 + b2 * 2 ^ 8 + b3) :: words fuel' rest
  | _, _ => []
  end.

Fixpoint blocks (fuel : nat) (ws : list Z) : list (list Z) :=
  match fuel, ws with
  | S fuel', _ :: _ => firstn 16 ws :: blocks fuel' (skipn 16 ws)
  | _, _ => []
  end.

Definition word_at (W : list Z) (t : nat) : Z := nth t W 0.

(** [W_t] for [t] from 16 to 63, appended one at a time. *)
Fixpoint schedule (n : nat) (W : list Z) : list Z :=
  match n with
  | O => W
  | S n' =>
      let t := List.length W in
      let w := add32 (add32 (sigma1 (word_at W (t - 2))) (word_at W (t - 7)))
                     (add32 (sigma0 (word_at W (t - 15))) (word_at W (t - 16))) in
      schedule n' (W ++ [w])
  end.

Record registers := Regs { ra : Z; rb : Z; rc : Z; rd : Z; re : Z; rf : Z; rg : Z; rh : Z }.

Definition round (r : registers) (kw : Z * Z) : registers :=
  let '(k, w) := kw in
  let T1 := add32 (add32 (add32 (rh r) (Sigma1 (re r))) (add32 (Ch (re r) (rf r) (rg r)) k)) w in
  let T2 := add32 (Sigma0 (ra r)) (Maj (ra r) (rb r) (rc r)) in
  Regs (add32 T1 T2) (ra r) (rb r) (rc r) (add32 (rd r) T1) (re r) (rf r) (rg r).

Definition regs_of (h : list Z) : registers :=
  Regs (word_at h 0) (word_at h 1) (word_at h 2) (word_at h 3)
       (word_at h 4) (word_at h 5) (word_at h 6) (word_at h 7).

Definition compress (h : list Z) (block : list Z) : list Z :=
  let r0 := regs_of h in
  let r := fold_left round (combine K (schedule 48 block)) r0 in
  [add32 (ra r0) (ra r); add32 (rb r0) (rb r); add32 (rc r0) (rc r); add32 (rd r0) (rd r);
   add32 (re r0) (re r); add32 (rf r0) (rf r); add32 (rg r0) (rg r); add32 (rh r0) (rh r)].

Definition digest (msg : list Z) : list Z :=
  let bs := pad msg in
  let h := fold_left compress (blocks (List.length bs) (words (List.length bs) bs)) H0 in
  flat_map (be_bytes 4) h.

End SHA256.

(** ** Typed arrays, text encoding and hexadecimal rendering *)

Module Bytes.
Local Open Scope Z_scope.

(** [new TextEncoder().encode(s)]: the strings that reach it here (JSON of
    numbers, [null], arrays and objects with ASCII keys; hexadecimal
    digests) are ASCII, one byte per character. *)
Fixpoint TextEncoder_encode (s : string) : list Z :=
  match s with
  | EmptyString => []
  | String c s' => Z.of_nat (nat_of_ascii c) :: TextEncoder_encode s'
  end.

Definition hex_digit (d : Z) : ascii :=
  if d <? 10 then ascii_of_nat (Z.to_nat (48 + d)) else ascii_of_nat (Z.to_nat (87 + d)).

(** [b.toString(radix)] for a non-negative integer [b] and a radix of at
    most 16. *)
Fixpoint toString_aux (fuel : nat) (radix b : Z) (acc : string) : string :=
  match fuel with
  | O => acc
  | S fuel' =>
      let acc' := String (hex_digit (b mod radix)) acc in
      if b / radix =? 0 then acc' else toString_aux fuel' radix (b / radix) acc'
  end.

Definition toString (radix b : Z) : string :=
  toString_aux (S (Z.to_nat (Z.log2 b))) radix b "".

(** [s.padStart(n, '0')] *)
Definition padStart0 (n : nat) (s : string) : string :=
  string_of_list_ascii (repeat "0"%char (n - String.length s)) ++ s.

Fixpoint join (parts : list string) : string :=
  match parts with
  | [] => ""
  | p :: rest => p ++ join rest
  end.

(** [Array.from(bytes).map(b => b.toString(16).padStart(2, '0')).join('')] *)
Definition hex (bytes : list Z) : string :=
  join (map (fun b => padStart0 2 (toString 16 b)) bytes).

End Bytes.

(** ** Numbers and the host's pure built-ins *)

(** What the engine supplies and this development does not recompute: the
    WHATWG URL parser ([new URL(url).hostname], which throws a [TypeError]
    on an invalid URL) and the decimal rendering of a number
    ([Number.prototype.toString], also used by [JSON.stringify] and by
    template literals). *)
Class Host := {
  URL_hostname : string -> outcome string;
  Number_toString : float -> string;
}.

Module Num.
Local Open Scope float_scope.

(** An argument of [Math.max]/[Math.min]: a number, or [undefined] when the
    property that was read does not exist. *)
Inductive arg : Type :=
| Undefined
| Number (x : float).

Definition ToNumber (v : arg) : float :=
  match v with
  | Undefined => nan
  | Number x => x
  end.

Definition is_pos_zero (x : float) : bool := is_zero x && negb (get_sign x).
Definition is_neg_zero (x : float) : bool := is_zero x && get_sign x.

(** One step of [Math.max]: a [NaN] anywhere makes the result [NaN], and
    [+0] counts as larger than [-0]. *)
Definition max_step (highest number : float) : float :=
  if is_nan highest || is_nan number then nan
  else if is_pos_zero number && is_neg_zero highest then number
  else if highest <? number then number else highest.

Definition min_step (lowest number : float) : float :=
  if is_nan lowest || is_nan number then nan
  else if is_neg_zero number && is_pos_zero lowest then number
  else if number <? lowest then number else lowest.

Definition Math_max (args : list arg) : float :=
  fold_left max_step (map ToNumber args) neg_infinity.

Definition Math_min (args : list arg) : float :=
  fold_left min_step (map ToNumber args) infinity.

(** Truthiness of a number: [0], [-0] and [NaN] are falsy. *)
Definition truthy (x : float) : bool := negb (is_zero x || is_nan x).

(** [n] as a number, for [array.length]. *)
Fixpoint of_nat (n : nat) : float :=
  match n with
  | O => zero
  | S n' => of_nat n' + one
  end.

End Num.

(** ** JSON values and [JSON.stringify] *)

Module JSON.

(** An object is the list of its own properties in insertion order;
    [JSON.stringify] writes them in the order of [own_property_order]
    below. *)
#[warnings="-register-all"]
Inductive value : Type :=
| Null
| Bool (b : bool)
| Num (x : float)
| Str (s : string)
| Arr (items : list value)
| Obj (props : list (string * value)).

(** The double quote, code 34. *)
Definition dquote : ascii := Eval compute in ascii_of_nat 34.

Definition hex4 (n : Z) : string :=
  Bytes.padStart0 4 (Bytes.toString 16 n).

(** QuoteJSONString, on one character. *)
Definition escape_char (c : ascii) : string :=
  let n := nat_of_ascii c in
  if Nat.eqb n 34 then String "\"%char (String dquote "")
  else if Nat.eqb n 92 then "\\"
  else if Nat.eqb n 8 then "\b"
  else if Nat.eqb n 12 then "\f"
  else if Nat.eqb n 10 then "\n"
  else if Nat.eqb n 13 then "\r"
  else if Nat.eqb n 9 then "\t"
  else if Nat.ltb n 32 then "\u" ++ hex4 (Z.of_nat n)
  else String c "".

Fixpoint escape (s : string) : string :=
  match s with
  | EmptyString => ""
  | String c s' => escape_char c ++ escape s'
  end.

Definition quote (s : string) : string :=
  String dquote (escape s ++ String dquote "").







Fixpoint commas (parts : list string) : string :=
  match parts with
  | [] => ""
  | [p] => p
  | p :: rest => p ++ "," ++ commas rest
  end.

(** The keys that are array indices: the decimal text, without a leading
    zero, of an integer from 0 to 2^32 - 2. *)
Fixpoint digits_value (s : string) (acc : Z) : option Z :=
  match s with
  | EmptyString => Some acc
  | String c s' =>
      let n := Z.of_nat (nat_of_ascii c) in
      if ((48 <=? n) && (n <=? 57))%Z then digits_value s' (10 * acc + (n - 48))%Z
      else None
  end.

Definition array_index (key : string) : option Z :=
  match key with
  | EmptyString => None
  | String c rest =>
      if Nat.eqb (nat_of_ascii c) 48 && negb (Nat.eqb (String.length rest) 0) then None
      else
        match digits_value key 0 with
        | Some n => if (n <? 2 ^ 32 - 1)%Z then Some n else None
        | None => None
        end
  end.

Fixpoint insert_index {A : Type} (n : Z) (entry : A) (sorted : list (Z * A)) : list (Z * A) :=
  match sorted with
  | [] => [(n, entry)]
  | (m, entry') :: sorted' =>
      if (n <? m)%Z then (n, entry) :: sorted
      else (m, entry') :: insert_index n entry sorted'
  end.

Fixpoint index_entries {A : Type} (props : list (string * A)) : list (Z * (string * A)) :=
  match props with
  | [] => []
  | (k, a) :: rest =>
      match array_index k with
      | Some n => insert_index n (k, a) (index_entries rest)
      | None => index_entries rest
      end
  end.

Fixpoint other_entries {A : Type} (props : list (string * A)) : list (string * A) :=
  match props with
  | [] => []
  | (k, a) :: rest =>
      match array_index k with
      | Some _ => other_entries rest
      | None => (k, a) :: other_entries rest
      end
  end.

(** The order in which the own properties of an object are enumerated:
    the array indices in ascending order, then the other keys in the order
    they were inserted. *)
Definition own_property_order {A : Type} (props : list (string * A)) : list (string * A) :=
  (map snd (index_entries props) ++ other_entries props)%list.

Fixpoint stringify `{Host} (v : value) : string :=
  match v with
  | Null => "null"
  | Bool b => if b then "true" else "false"
  | Num x => if is_finite x then Number_toString x else "null"
  | Str s => quote s
  | Arr items => "[" ++ commas (map stringify items) ++ "]"
  | Obj props =>
      "{" ++ commas (map snd (own_property_order
                     (map (fun '(k, v') => (k, quote k ++ ":" ++ stringify v')) props)))
          ++ "}"
  end.

End JSON.

(** ** Messages between the content script and the background worker *)

(** What [/issue-token] answers and the content script keeps as its active
    token: [{ token, consistencyScore }], with [token] a string or [null]. *)
Record Token := { token : option string; consistencyScore : float }.

(** The answer to a [VERIFY_CONTEXT] message. *)
Inductive Reply : Type :=
| Success (t : Token)        (* { success: true, token } *)
| Failure (error : string).  (* { success: false, error } *)

(** ** background.js *)

Module Background.
Local Open Scope float_scope.

Definition API_ENDPOINTS : list (string * string) :=
  [("walmart.com", "https://api.walmart.com/secure-context");
   ("amazon.com", "https://api.amazon.com/secure-context");
   ("target.com", "https://api.target.com/secure-context");
   ("bestbuy.com", "https://api.bestbuy.com/secure-context");
   ("ebay.com", "https://api.ebay.com/secure-context");
   ("costco.com", "https://api.costco.com/secure-context")].

(** [table[key]] *)
Fixpoint property {V : Type} (table : list (string * V)) (key : string) : option V :=
  match table with
  | [] => None
  | (k, v) :: rest => if String.eqb k key then Some v else property rest key
  end.

(** [null] is [None]; the [TypeError] of [new URL] on an invalid URL
    propagates. *)
Definition getApiEndpoint `{Host} (url : string) : outcome (option string) :=
  hostname ← URL_hostname url;
  let domain := replace hostname "www." "" in
  let site := find (fun site => includes domain site) (map fst API_ENDPOINTS) in
  mret (match site with
        | Some site => property API_ENDPOINTS site
        | None => None
        end).

(** Opaque [CryptoKey] handles. *)
Inductive CryptoKey : Type := Key (handle : nat).
Record CryptoKeyPair := { publicKey : CryptoKey; privateKey : CryptoKey }.

(** The objects built by the four signal sources and by
    [collectContextData], field for field.  The object that
    [getGeolocationData] resolves with has no [timestamp] property. *)
Record Location := { lat : float; lng : float; accuracy : float }.
Record WiFiData := {
  nearby_networks : list JSON.value;
  connection_strength : float;
  wifi_timestamp : float }.
Record Acceleration := { acc_x : float; acc_y : float; acc_z : float }.
Record Rotation := { alpha : float; beta : float; gamma : float }.
Record MotionData := {
  acceleration : Acceleration;
  rotation : Rotation;
  motion_timestamp : float }.
Record POSData := {
  terminal_id : option string;
  signal_strength : float;
  pos_timestamp : float }.
Record ContextData := {
  location : Location;
  wifi_fingerprint : WiFiData;
  motion_signature : MotionData;
  pos_terminal : POSData;
  timestamp : float }.

(** The same objects as [JSON.stringify] sees them: own properties in the
    order of the object literals of the source. *)
Definition json_of_location (l : Location) : JSON.value :=
  JSON.Obj [("lat", JSON.Num (lat l)); ("lng", JSON.Num (lng l));
            ("accuracy", JSON.Num (accuracy l))].

Definition json_of_wifi (d : WiFiData) : JSON.value :=
  JSON.Obj [("nearby_networks", JSON.Arr (nearby_networks d));
            ("connection_strength", JSON.Num (connection_strength d));
            ("timestamp", JSON.Num (wifi_timestamp d))].

Definition json_of_motion (m : MotionData) : JSON.value :=
  JSON.Obj [("acceleration",
             JSON.Obj [("x", JSON.Num (acc_x (acceleration m)));
                       ("y", JSON.Num (acc_y (acceleration m)));
                       ("z", JSON.Num (acc_z (acceleration m)))]);
            ("rotation",
             JSON.Obj [("alpha", JSON.Num (alpha (rotation m)));
                       ("beta", JSON.Num (beta (rotation m)));
                       ("gamma", JSON.Num (gamma (rotation m)))]);
            ("timestamp", JSON.Num (motion_timestamp m))].

Definition json_of_pos (p : POSData) : JSON.value :=
  JSON.Obj [("terminal_id",
             match terminal_id p with Some id => JSON.Str id | None => JSON.Null end);
            ("signal_strength", JSON.Num (signal_strength p));
            ("timestamp", JSON.Num (pos_timestamp p))].

Definition json_of_contextData (c : ContextData) : JSON.value :=
  JSON.Obj [("location", json_of_location (location c));
            ("wifi_fingerprint", json_of_wifi (wifi_fingerprint c));
            ("motion_signature", json_of_motion (motion_signature c));
            ("pos_terminal", json_of_pos (pos_terminal c));
            ("timestamp", JSON.Num (timestamp c))].

(** An HTTP request as [fetch] receives it, and its response. *)
Record Request := {
  method : string;
  headers : list (string * string);
  body : string }.
Record Response := { ok : bool; json : outcome Token }.

(** What the browser and the network do during one request.  [Date_now n]
    is the value of the [n]-th call to [Date.now()]. *)
Record World := {
  getCurrentPosition : outcome Location;
  Date_now : nat -> float;
  subtle_sign : CryptoKey -> list Z -> outcome (list Z);
  subtle_exportKey : CryptoKey -> outcome (list Z);
  fetch : string -> Request -> outcome Response }.

Definition getGeolocationData (w : World) : outcome Location :=
  position ← getCurrentPosition w;
  mret {| lat := lat position; lng := lng position; accuracy := accuracy position |}.

Definition getWiFiData (now : float) : WiFiData :=
  {| nearby_networks := []; connection_strength := 0; wifi_timestamp := now |}.

Definition getMotionSignature (now : float) : MotionData :=
  {| acceleration := {| acc_x := 0; acc_y := 0; acc_z := 0 |};
     rotation := {| alpha := 0; beta := 0; gamma := 0 |};
     motion_timestamp := now |}.

Definition getPOSTerminalBeacon (now : float) : POSData :=
  {| terminal_id := None; signal_strength := 0; pos_timestamp := now |}.

Definition evaluateLocationConsistency (l : Location) : float :=
  if accuracy l <=? 20 then 1.0 else 0.5.

(** The score of a list of timestamps as they were read from the objects. *)
Definition temporal_score (timestamps : list Num.arg) : float :=
  let maxDiff := Num.Math_max timestamps - Num.Math_min timestamps in
  if maxDiff <? 5000 then 1.0 else 0.5.

(** [contextData.location.timestamp] reads a property that [Location]
    objects do not have: it is [undefined]. *)
Definition timestamps_of (c : ContextData) : list Num.arg :=
  [Num.Number (timestamp c);
   Num.Undefined;
   Num.Number (wifi_timestamp (wifi_fingerprint c));
   Num.Number (motion_timestamp (motion_signature c))].

Definition evaluateTemporalConsistency (c : ContextData) : float :=
  temporal_score (timestamps_of c).

Definition evaluateMotionConsistency (m : MotionData) : float := 1.0.

Definition evaluateNetworkConsistency (d : WiFiData) : float := 1.0.

(** The [scores] object literal, in property order. *)
Definition scores (c : ContextData) : list (string * float) :=
  [("location_consistency", evaluateLocationConsistency (location c));
   ("temporal_consistency", evaluateTemporalConsistency c);
   ("motion_consistency", evaluateMotionConsistency (motion_signature c));
   ("network_consistency", evaluateNetworkConsistency (wifi_fingerprint c))].

(** [Object.values(scores).reduce((a, b) => a + b, 0) / Object.keys(scores).length] *)
Definition computeConsistencyScore (c : ContextData) : float :=
  fold_left add (map snd (scores c)) 0 / Num.of_nat (List.length (map fst (scores c))).

Definition generateContextHash `{Host} (contextData : JSON.value) : string :=
  let contextString := JSON.stringify contextData in
  let data := Bytes.TextEncoder_encode contextString in
  let hashBuffer := SHA256.digest data in
  Bytes.hex hashBuffer.

Record Collected := {
  contextData : ContextData;
  contextHash : string;
  collectedScore : float }.

(** [Promise.all] starts the four sources in order; the three mocked ones
    read the clock at once, the snapshot reads it after all have resolved. *)
Definition collectContextData `{Host} (w : World) : outcome Collected :=
  let wifiData := getWiFiData (Date_now w 0) in
  let motionData := getMotionSignature (Date_now w 1) in
  let posData := getPOSTerminalBeacon (Date_now w 2) in
  location ← getGeolocationData w;
  let contextData :=
    {| location := location;
       wifi_fingerprint := wifiData;
       motion_signature := motionData;
       pos_terminal := posData;
       timestamp := Date_now w 3 |} in
  mret {| contextData := contextData;
          contextHash := generateContextHash (json_of_contextData contextData);
          collectedScore := computeConsistencyScore contextData |}.

Definition signData (w : World) (data : string) (privateKey : CryptoKey) : outcome string :=
  signature ← subtle_sign w privateKey (Bytes.TextEncoder_encode data);
  mret (Bytes.hex signature).

Definition exportPublicKey (w : World) (publicKey : CryptoKey) : outcome string :=
  exported ← subtle_exportKey w publicKey;
  mret (Bytes.hex exported).

Definition requestZKPToken `{Host} (w : World) (deviceKeyPair : option CryptoKeyPair)
    (contextHash : string) (consistencyScore : float) (siteUrl : string) : outcome Token :=
  match deviceKeyPair with
  | None => Throws "Device key pair not initialized"
  | Some keys =>
      apiEndpoint ← getApiEndpoint siteUrl;
      match apiEndpoint with
      | None => Throws "Unsupported shopping site"
      | Some apiEndpoint =>
          signature ← signData w contextHash (privateKey keys);
          exportedKey ← exportPublicKey w (publicKey keys);
          response ← fetch w (apiEndpoint ++ "/issue-token")
            {| method := "POST";
               headers := [("Content-Type", "application/json")];
               body := JSON.stringify
                 (JSON.Obj [("contextHash", JSON.Str contextHash);
                            ("signature", JSON.Str signature);
                            ("consistencyScore", JSON.Num consistencyScore);
                            ("publicKey", JSON.Str exportedKey)]) |};
          if negb (ok response) then Throws "Failed to obtain ZKP token"
          else json response
      end
  end.

(** The [VERIFY_CONTEXT] branch of the message listener, for a message sent
    from the tab whose URL is [siteUrl]: the one reply it sends. *)
Definition onVerifyContext `{Host} (w : World) (deviceKeyPair : option CryptoKeyPair)
    (siteUrl : string) : Reply :=
  let answered :=
    collected ← collectContextData w;
    try_catch
      (t ← requestZKPToken w deviceKeyPair (contextHash collected)
             (collectedScore collected) siteUrl;
       mret (Success t))
      (fun message =>
         if String.eqb message "Unsupported shopping site"
         then Returns (Success {| token := None; consistencyScore := 0 |})
         else Throws message) in
  match answered with
  | Returns reply => reply
  | Throws message => Failure message
  end.

End Background.

(** ** The content script *)

Module Content.
Local Open Scope float_scope.

Record Site := { apiPattern : string; storePattern : string }.

Definition SUPPORTED_SITES : list (string * Site) :=
  [("walmart.com", {| apiPattern := "api.walmart.com"; storePattern := "/store/" |});
   ("amazon.com", {| apiPattern := "api.amazon.com"; storePattern := "/dp/" |});
   ("target.com", {| apiPattern := "api.target.com"; storePattern := "/p/" |});
   ("bestbuy.com", {| apiPattern := "api.bestbuy.com"; storePattern := "/products/" |});
   ("ebay.com", {| apiPattern := "api.ebay.com"; storePattern := "/itm/" |});
   ("costco.com", {| apiPattern := "api.costco.com"; storePattern := "/product/" |})].

(** [hostname] is [window.location.hostname]. *)
Definition getCurrentSite (hostname : string) : option (string * Site) :=
  let currentDomain := replace hostname "www." "" in
  find (fun '(domain, _) => includes currentDomain domain) SUPPORTED_SITES.

Definition consistencyThreshold : float := 0.7.

(** The custom events dispatched on the page's [window], with their
    [detail]. *)
Inductive event : Type :=
| secureContextTokenUpdated (t : Token) (score : float)
| secureContextStatusChanged (status : string) (score : float)
| secureContextVerificationFailed (reason : string) (score : float).

(** What the script does that is visible outside it, in the order it
    happens. *)
Inductive effect : Type :=
| ConsoleError (label detail : string)
| SetPageToken (t : option Token)   (* window.secureContextToken = ... *)
| Dispatch (e : event).

(** The script's variables, the interval timers that are armed, the
    messages that still await their reply, and the effects so far. *)
Record State := {
  activeToken : option Token;
  verificationInterval : option nat;
  armed : list nat;
  next_timer : nat;
  in_flight : nat;
  trace : list effect }.

Definition emit (e : effect) (s : State) : State :=
  {| activeToken := activeToken s;
     verificationInterval := verificationInterval s;
     armed := armed s;
     next_timer := next_timer s;
     in_flight := in_flight s;
     trace := trace s ++ [e] |}.

Definition set_activeToken (t : option Token) (s : State) : State :=
  {| activeToken := t;
     verificationInterval := verificationInterval s;
     armed := armed s;
     next_timer := next_timer s;
     in_flight := in_flight s;
     trace := trace s |}.

Definition set_verificationInterval (i : option nat) (s : State) : State :=
  {| activeToken := activeToken s;
     verificationInterval := i;
     armed := armed s;
     next_timer := next_timer s;
     in_flight := in_flight s;
     trace := trace s |}.

Definition set_in_flight (n : nat) (s : State) : State :=
  {| activeToken := activeToken s;
     verificationInterval := verificationInterval s;
     armed := armed s;
     next_timer := next_timer s;
     in_flight := n;
     trace := trace s |}.

(** [setInterval(verifyContext, 25000)]: a fresh timer is armed; its
    identifier is returned with the new state. *)
Definition setInterval (s : State) : nat * State :=
  (next_timer s,
   {| activeToken := activeToken s;
      verificationInterval := verificationInterval s;
      armed := next_timer s :: armed s;
      next_timer := S (next_timer s);
      in_flight := in_flight s;
      trace := trace s |}).

Definition clearInterval (id : nat) (s : State) : State :=
  {| activeToken := activeToken s;
     verificationInterval := verificationInterval s;
     armed := filter (fun t => negb (Nat.eqb t id)) (armed s);
     next_timer := next_timer s;
     in_flight := in_flight s;
     trace := trace s |}.

Definition injectTokenToPage (t : Token) (s : State) : State :=
  emit (Dispatch (secureContextTokenUpdated t (consistencyScore t)))
    (emit (SetPageToken (Some t)) s).

(** The default of the [consistencyScore] parameter is [0]. *)
Definition notifyPageContextStatus (status : string) (score : option float) (s : State)
    : State :=
  emit (Dispatch (secureContextStatusChanged status (default 0 score))) s.

(** [None] is a call without argument, or with [undefined]. *)
Definition handleVerificationFailure (score : option float) (s : State) : State :=
  let consistencyScore := default 0 score in
  let reason :=
    if Num.truthy consistencyScore then "Insufficient consistency score"
    else "Verification error" in
  emit (Dispatch (secureContextVerificationFailed reason consistencyScore))
    (emit (SetPageToken None) (set_activeToken None s)).

(** [verifyContext] up to its [await]: the message is sent. *)
Definition verifyContext_send (s : State) : State :=
  set_in_flight (S (in_flight s)) s.

(** [verifyContext] from its [await] on; [Throws] is a rejected
    [sendMessage]. *)
Definition verifyContext_resume (response : outcome Reply) (s : State) : State :=
  match response with
  | Returns (Success t) =>
      if consistencyThreshold <=? consistencyScore t then
        notifyPageContextStatus "active" (Some (consistencyScore t))
          (injectTokenToPage t (set_activeToken (Some t) s))
      else
        handleVerificationFailure (Some (consistencyScore t))
          (emit (ConsoleError "Context verification failed:"
                   "Insufficient consistency score") s)
  | Returns (Failure error) =>
      handleVerificationFailure None
        (emit (ConsoleError "Context verification failed:" error) s)
  | Throws message =>
      handleVerificationFailure None
        (emit (ConsoleError "Error during context verification:" message) s)
  end.

Definition startContextVerification (s : State) : State :=
  let s :=
    match verificationInterval s with
    | Some id => clearInterval id s
    | None => s
    end in
  let s := verifyContext_send s in
  let '(id, s) := setInterval s in
  set_verificationInterval (Some id) s.

Definition stopContextVerification (s : State) : State :=
  let s :=
    match verificationInterval s with
    | Some id => set_verificationInterval None (clearInterval id s)
    | None => s
    end in
  notifyPageContextStatus "inactive" None (set_activeToken None s).

(** What can happen to the script: a [NAVIGATION_CHANGE] message, an
    interval timer firing, the reply to a pending message. *)
Inductive input : Type :=
| NavigationChange (inStore : bool)
| Tick (id : nat)
| Replied (response : outcome Reply).

(** [None]: the input cannot happen in this state (the timer is not armed,
    no message awaits a reply). *)
Definition step (i : input) (s : State) : option State :=
  match i with
  | NavigationChange true => Some (startContextVerification s)
  | NavigationChange false => Some (stopContextVerification s)
  | Tick id =>
      if existsb (Nat.eqb id) (armed s) then Some (verifyContext_send s) else None
  | Replied response =>
      match in_flight s with
      | S n => Some (verifyContext_resume response (set_in_flight n s))
      | O => None
      end
  end.

Fixpoint run (inputs : list input) (s : State) : option State :=
  match inputs with
  | [] => Some s
  | i :: rest =>
      match step i s with
      | Some s' => run rest s'
      | None => None
      end
  end.

Definition loaded : State :=
  {| activeToken := None;
     verificationInterval := None;
     armed := [];
     next_timer := 1;
     in_flight := 0;
     trace := [] |}.

(** The last statement of the script, run once when it is loaded. *)
Definition initialise (hostname href : string) : State :=
  match getCurrentSite hostname with
  | Some (_, site) =>
      if includes href (storePattern site) then startContextVerification loaded
      else loaded
  | None => loaded
  end.

(** What was emitted between the state [s] and a later state [s']. *)
Definition emitted (s s' : State) : list effect :=
  skipn (List.length (trace s)) (trace s').

(** The timers that are armed are the one the script remembers. *)
Definition timers_ok (s : State) : Prop :=
  armed s = match verificationInterval s with
            | Some id => [id]
            | None => []
            end.

(** The second argument of [fetch]: its [headers] object, when it has one,
    and its other properties.  A header value is a string, or [None] for
    [null]. *)
Record RequestInit := {
  init_headers : option (gmap string (option string));
  init_others : list (string * string) }.

(** The wrapper around [window.fetch], for a call whose first argument is a
    URL string: the arguments it hands to the original [fetch]. *)
Definition intercept `{Host} (hostname : string) (activeToken : option Token)
    (args : string * option RequestInit) : string * option RequestInit :=
  match getCurrentSite hostname with
  | Some (domain, site) =>
      if includes (fst args) (apiPattern site) then
        let request := default {| init_headers := None; init_others := [] |} (snd args) in
        let headers := default ∅ (init_headers request) in
        let headers :=
          match activeToken with
          | Some t =>
              <["X-Shopping-Site" := Some domain]>
                (<["X-Context-Consistency-Score" := Some (Number_toString (consistencyScore t))]>
                   (<["X-Secure-Context-Token" := token t]> headers))
          | None => headers
          end in
        (fst args, Some {| init_headers := Some headers; init_others := init_others request |})
      else args
  | None => args
  end.

(** The names of the three headers the wrapper sets. *)
Definition attestation_headers : list string :=
  ["X-Secure-Context-Token"; "X-Context-Consistency-Score"; "X-Shopping-Site"].

(** The [headers] of a second argument, empty when there is none. *)
Definition headers_of (init : option RequestInit) : gmap string (option string) :=
  default ∅ (init ≫= init_headers).

End Content.

(** ** A host, a world and a snapshot to evaluate the definitions on *)

Module Sample.

(** The host name of [scheme://host:port/path?query#fragment]. *)
Fixpoint after_scheme (url : string) : option string :=
  if String.prefix "://" url then Some (drop 3 url)
  else match url with
       | EmptyString => None
       | String _ url' => after_scheme url'
       end.

Definition ends_host (c : ascii) : bool :=
  let n := nat_of_ascii c in
  Nat.eqb n 47 || Nat.eqb n 58 || Nat.eqb n 63 || Nat.eqb n 35.

Fixpoint host_part (s : string) : string :=
  match s with
  | EmptyString => ""
  | String c s' => if ends_host c then "" else String c (host_part s')
  end.

Definition hostname (url : string) : outcome string :=
  match after_scheme url with
  | Some rest => Returns (host_part rest)
  | None => Throws "Invalid URL"
  end.

Fixpoint strip_zeros (digits : list ascii) : list ascii :=
  match digits with
  | [] => []
  | d :: rest =>
      match strip_zeros rest with
      | [] => if Ascii.eqb d "0" then [] else [d]
      | rest' => d :: rest'
      end
  end.

(** [m * 2^e] in decimal, all digits written out. *)
Definition decimal (m e : Z) : string :=
  if (0 <=? e)%Z then Bytes.toString 10 (m * 2 ^ e)
  else
    let k := (- e)%Z in
    let whole := (m / 2 ^ k)%Z in
    let part := ((m mod 2 ^ k) * 5 ^ k)%Z in
    if (part =? 0)%Z then Bytes.toString 10 whole
    else Bytes.toString 10 whole ++ "." ++
         string_of_list_ascii
           (strip_zeros (list_ascii_of_string
              (Bytes.padStart0 (Z.to_nat k) (Bytes.toString 10 part)))).

(** The text of a number: that of [Number.prototype.toString] for the
    whole numbers below [10^21] and for the fractions whose shortest decimal
    form is exact ([0.5], [0.75], [0.875]), the only numbers rendered in the
    examples below. *)
Definition number_text (x : float) : string :=
  match Prim2SF x with
  | S754_zero _ => "0"
  | S754_infinity s => if s then "-Infinity" else "Infinity"
  | S754_nan => "NaN"
  | S754_finite s m e => (if s then "-" else "") ++ decimal (Z.pos m) e
  end.

Definition host : Host :=
  {| URL_hostname := hostname; Number_toString := number_text |}.

Local Open Scope float_scope.

Definition keys : Background.CryptoKeyPair :=
  {| Background.publicKey := Background.Key 1; Background.privateKey := Background.Key 2 |}.

(** A world where every reading is taken in the same millisecond, the
    position is accurate to 10 metres and the server issues a token. *)
Definition world : Background.World :=
  {| Background.getCurrentPosition :=
       Returns {| Background.lat := 36; Background.lng := -94; Background.accuracy := 10 |};
     Background.Date_now := fun _ => 1700000000000;
     Background.subtle_sign := fun _ data => Returns [1; 2; 255]%Z;
     Background.subtle_exportKey := fun _ => Returns [4; 16]%Z;
     Background.fetch := fun _ _ =>
       Returns {| Background.ok := true;
                  Background.json := Returns {| token := Some "t0"; consistencyScore := 0.875 |} |} |}.

Definition snapshot : Background.ContextData :=
  {| Background.location :=
       {| Background.lat := 36; Background.lng := -94; Background.accuracy := 10 |};
     Background.wifi_fingerprint := Background.getWiFiData 1700000000000;
     Background.motion_signature := Background.getMotionSignature 1700000000000;
     Background.pos_terminal := Background.getPOSTerminalBeacon 1700000000000;
     Background.timestamp := 1700000000000 |}.


Definition active : Token := {| token := Some "t0"; consistencyScore := 0.875 |}.

End Sample.

(** ** popup.js *)

Module Popup.

Definition API_ENDPOINT : string := "https://api.walmart.com/secure-context".

(** The elements the script looks up by identifier, which the popup's page
    is taken to have, and [document.body]. *)
Inductive element : Type :=
| statusDot | statusText | locationStatus | errorMessage | errorText | body.

(** What the script does, in program order; [Later ms effects] is a
    [setTimeout] of [ms] milliseconds whose callback does [effects]. *)
#[warnings="-register-all"]
Inductive effect : Type :=
| SetStyle (el : element) (property value : string)
| SetText (el : element) (text : string)
| SetClass (el : element) (className : string)
| SendMessage (type : string)
| Fetch (url : string) (request : Background.Request)
| StorageClear
| Reload
| Later (ms : nat) (effects : list effect).

(** The effects with the callbacks of the timers laid open. *)
Fixpoint unfold_effect (e : effect) : list effect :=
  match e with
  | Later _ inner => flat_map unfold_effect inner
  | _ => [e]
  end.

Definition flatten (effects : list effect) : list effect :=
  flat_map unfold_effect effects.

Record Status := { dot : string; text : string; location : string }.

Definition showError (message : string) : list effect :=
  [SetStyle errorMessage "opacity" "0";
   SetStyle errorMessage "transform" "translateY(-10px)";
   SetStyle errorMessage "display" "flex";
   SetText errorText message;
   Later 100
     [SetStyle errorMessage "transition" "all 0.3s ease";
      SetStyle errorMessage "opacity" "1";
      SetStyle errorMessage "transform" "translateY(0)"];
   Later 5000
     [SetStyle errorMessage "opacity" "0";
      SetStyle errorMessage "transform" "translateY(-10px)";
      Later 300 [SetStyle errorMessage "display" "none"]]].

Definition updateStatusWithAnimation (status : Status) : list effect :=
  [SetStyle statusText "opacity" "0";
   SetStyle statusText "transform" "translateY(-10px)";
   SetStyle locationStatus "opacity" "0";
   SetStyle locationStatus "transform" "translateY(-10px)";
   Later 300
     [SetClass statusDot ("status-dot " ++ dot status);
      SetText statusText (text status);
      SetText locationStatus (location status);
      SetStyle statusText "transition" "all 0.3s ease";
      SetStyle statusText "opacity" "1";
      SetStyle statusText "transform" "translateY(0)";
      SetStyle locationStatus "transition" "all 0.3s ease";
      SetStyle locationStatus "opacity" "1";
      SetStyle locationStatus "transform" "translateY(0)"]].

(** What the browser, the user and the network do while the popup runs.
    [tab_url] is the URL of the active tab, or the error thrown on the way
    to it (a rejected query, no tab, a tab without URL); [reply] is the
    answer to [VERIFY_CONTEXT], or the error thrown instead (a rejected
    [sendMessage], no answer); [storage_get] is the stored [publicKey],
    [None] when nothing is stored. *)
Record World := {
  tab_url : outcome string;
  reply : outcome Reply;
  confirm : bool;
  storage_get : outcome (option JSON.value);
  fetch_ok : string -> Background.Request -> outcome bool;
  storage_clear : outcome unit }.

Definition verified : Status :=
  {| dot := "active"; text := "Context Verified";
     location := "Location: Verified In-Store" |}.

Definition not_in_store : Status :=
  {| dot := "inactive"; text := "Not in Store"; location := "Location: Outside Store" |}.

Definition failed : Status :=
  {| dot := "inactive"; text := "Verification Failed"; location := "Location: Unknown" |}.

(** The [catch] block of [updateStatus]. *)
Definition updateStatus_catch (message : string) : list effect :=
  (updateStatusWithAnimation failed ++ showError message)%list.

Definition updateStatus (w : World) : list effect :=
  match tab_url w with
  | Throws message => updateStatus_catch message
  | Returns url =>
      let isStorePage := includes url "walmart.com/store/" in
      if isStorePage then
        SendMessage "VERIFY_CONTEXT" ::
        match reply w with
        | Returns (Success _) => updateStatusWithAnimation verified
        | Returns (Failure error) => updateStatus_catch error
        | Throws message => updateStatus_catch message
        end
      else updateStatusWithAnimation not_in_store
  end.

(** [JSON.stringify({ publicKey })]: a property whose value is [undefined]
    is left out. *)
Definition publicKey_body `{Host} (publicKey : option JSON.value) : string :=
  JSON.stringify
    (JSON.Obj match publicKey with
              | Some key => [("publicKey", key)]
              | None => []
              end).

Definition revokeDevice `{Host} (w : World) : list effect :=
  if negb (confirm w) then []
  else
    match storage_get w with
    | Throws _ => showError "Failed to revoke device"
    | Returns publicKey =>
        let url := API_ENDPOINT ++ "/revoke-device" in
        let request :=
          {| Background.method := "POST";
             Background.headers := [("Content-Type", "application/json")];
             Background.body := publicKey_body publicKey |} in
        Fetch url request ::
        match fetch_ok w url request with
        | Throws _ => showError "Failed to revoke device"
        | Returns false => showError "Failed to revoke device"
        | Returns true =>
            [SetStyle body "opacity" "0";
             SetStyle body "transform" "translateY(-20px)";
             Later 300
               (StorageClear ::
                match storage_clear w with
                | Returns _ => [Reload]
                | Throws _ => []
                end)]
        end
    end.

End Popup.

(** ** Observations on the models *)

Module Observe.

(** What the page holds. The effect [SetPageToken (Some t)] is the injected
    script [window.secureContextToken = <JSON.stringify(t)>;]: the page reads
    the token back from its JSON text, in which a score that is not finite
    has become [null] and a negative zero [0]. *)
Record PageToken := { page_token_value : option string; page_score : option float }.

Definition as_injected (t : Token) : PageToken :=
  {| page_token_value := token t;
     page_score :=
       if is_finite (consistencyScore t)
       then Some (if is_zero (consistencyScore t) then zero else consistencyScore t)
       else None |}.

(** [window.secureContextToken] after the effects, from [current]. *)
Fixpoint page_token (effects : list Content.effect) (current : option PageToken)
    : option PageToken :=
  match effects with
  | [] => current
  | Content.SetPageToken t :: rest => page_token rest (as_injected <$> t)
  | _ :: rest => page_token rest current
  end.

(** The states the content script can be in on a page. *)
Definition reachable (hostname href : string) (s : Content.State) : Prop :=
  exists inputs, Content.run inputs (Content.initialise hostname href) = Some s.

Definition is_hex_digit (c : ascii) : bool :=
  let n := nat_of_ascii c in
  (Nat.leb 48 n && Nat.leb n 57) || (Nat.leb 97 n && Nat.leb n 102).

Definition all_hex (s : string) : bool :=
  forallb is_hex_digit (list_ascii_of_string s).

(** The reader of [Bytes.hex]: two digits make a byte. *)
Definition digit_value (c : ascii) : Z :=
  let n := Z.of_nat (nat_of_ascii c) in
  if (n <=? 57)%Z then (n - 48)%Z else (n - 87)%Z.

Fixpoint unhex (s : string) : option (list Z) :=
  match s with
  | EmptyString => Some []
  | String c1 (String c2 rest) =>
      match unhex rest with
      | Some bytes => Some ((16 * digit_value c1 + digit_value c2)%Z :: bytes)
      | None => None
      end
  | String _ EmptyString => None
  end.

Definition is_byte (b : Z) : Prop := (0 <= b < 256)%Z.

End Observe.

(** ** Further worlds to evaluate the definitions on *)

Module Cases.
Local Open Scope float_scope.

(** As [Sample.world], but the body of the server's answer cannot be read,
    and the error says so in the words of the unsupported site. *)
Definition misleading_world : Background.World :=
  {| Background.getCurrentPosition := Background.getCurrentPosition Sample.world;
     Background.Date_now := Background.Date_now Sample.world;
     Background.subtle_sign := Background.subtle_sign Sample.world;
     Background.subtle_exportKey := Background.subtle_exportKey Sample.world;
     Background.fetch := fun _ _ =>
       Returns {| Background.ok := true;
                  Background.json := Throws "Unsupported shopping site" |} |}.

(** The popup opened on a store page; the reply is a success whose score
    is below the threshold; the user confirms, nothing is stored, the
    server accepts. *)
Definition popup_world : Popup.World :=
  {| Popup.tab_url := Returns "https://www.walmart.com/store/5260";
     Popup.reply := Returns (Success {| token := Some "t0"; consistencyScore := 0.5 |});
     Popup.confirm := true;
     Popup.storage_get := Returns None;
     Popup.fetch_ok := fun _ _ => Returns true;
     Popup.storage_clear := Returns tt |}.

(** The same popup when the background worker has no key pair. *)
Definition popup_without_key : Popup.World :=
  {| Popup.tab_url := Popup.tab_url popup_world;
     Popup.reply := Returns (Failure "Device key pair not initialized");
     Popup.confirm := false;
     Popup.storage_get := Returns None;
     Popup.fetch_ok := fun _ _ => Returns true;
     Popup.storage_clear := Returns tt |}.

End Cases.

(** ** The fetch wrapper on every kind of argument *)

Module Wrapper.

(** The first argument of [fetch]: a URL string, a [Request] or a [URL]. *)
Inductive resource : Type :=
| UrlString (url : string)
| RequestObject (url : string)
| URLObject (href : string).

(** The [headers] of the second argument: a plain object, a [Headers]
    instance or an array of pairs. Each is an object on which the wrapper
    can set a property ([props]); what [fetch] takes as headers is the own
    properties of a plain object, but the entries of a [Headers] instance
    and the pairs of an array, not their properties. *)
Inductive HeadersInit : Type :=
| PlainObject (props : gmap string (option string))
| HeadersInstance (entries : list (string * string)) (props : gmap string (option string))
| PairArray (pairs : list (string * string)) (props : gmap string (option string)).

(** [headers[name] = value] *)
Definition set_property (name : string) (value : option string) (h : HeadersInit)
    : HeadersInit :=
  match h with
  | PlainObject props => PlainObject (<[name := value]> props)
  | HeadersInstance entries props => HeadersInstance entries (<[name := value]> props)
  | PairArray pairs props => PairArray pairs (<[name := value]> props)
  end.

(** The value [fetch] sends for the header [name], if it sends one. *)
Definition header_read (name : string) (h : HeadersInit) : option (option string) :=
  match h with
  | PlainObject props => props !! name
  | HeadersInstance entries _ => Some <$> Background.property entries name
  | PairArray pairs _ => Some <$> Background.property pairs name
  end.

Record Init := { headers : option HeadersInit; others : list (string * string) }.

(** The wrapper around [window.fetch]. It is an async function: [Throws] is
    the rejected promise it returns without calling the original [fetch],
    and [not_a_function] the message of the engine's [TypeError] for the
    call of [args[0].includes] on an object that has no such method. *)
Definition fetch_wrapper `{Host} (not_a_function hostname : string)
    (activeToken : option Token) (args : resource * option Init)
    : outcome (resource * option Init) :=
  match Content.getCurrentSite hostname with
  | Some (domain, site) =>
      match fst args with
      | UrlString url =>
          if includes url (Content.apiPattern site) then
            let request := default {| headers := None; others := [] |} (snd args) in
            let headers := default (PlainObject ∅) (headers request) in
            let headers :=
              match activeToken with
              | Some t =>
                  set_property "X-Shopping-Site" (Some domain)
                    (set_property "X-Context-Consistency-Score"
                       (Some (Number_toString (consistencyScore t)))
                       (set_property "X-Secure-Context-Token" (token t) headers))
              | None => headers
              end in
            Returns (fst args, Some {| headers := Some headers; others := others request |})
          else Returns args
      | RequestObject _ => Throws not_a_function
      | URLObject _ => Throws not_a_function
      end
  | None => Returns args
  end.

(** A second argument of [Content.intercept] as one of the wrapper. *)
Definition of_plain (init : Content.RequestInit) : Init :=
  {| headers := PlainObject <$> Content.init_headers init;
     others := Content.init_others init |}.

(** The second argument is missing, or its [headers] are missing or a plain
    object. *)
Definition plain_or_absent (init : option Init) : Prop :=
  match init with
  | None => True
  | Some i =>
      match headers i with
      | None => True
      | Some (PlainObject _) => True
      | Some _ => False
      end
  end.

End Wrapper.

(** * Properties *)

(** ** The built-ins on known values *)

Example includes_sub : includes "shop.walmart.com" "walmart.com" = true.
Proof. reflexivity. Qed.

Example includes_not : includes "example.com" "walmart.com" = false.
Proof. reflexivity. Qed.

Example replace_first : replace "www.www.a" "www." "" = "www.a".
Proof. reflexivity. Qed.

Example replace_inner : replace "shop.www.a" "www." "" = "shop.a".
Proof. reflexivity. Qed.

Example array_indices :
  map JSON.array_index ["0"; "7"; "42"; "4294967294"]
  = [Some 0; Some 7; Some 42; Some 4294967294]%Z
  /\ map JSON.array_index [""; "01"; "4294967295"; "1e3"; "-1"; "timestamp"]
     = [None; None; None; None; None; None].
Proof. split; reflexivity. Qed.

(** Keys that are array indices come first, in ascending order, wherever
    they were inserted. *)
Example index_keys_first :
  JSON.own_property_order [("b", 1); ("10", 2); ("a", 3); ("9", 4)]%Z
  = [("9", 4); ("10", 2); ("b", 1); ("a", 3)]%Z
  /\ @JSON.stringify Sample.host (JSON.Obj [("b", JSON.Num 1); ("0", JSON.Num 2)])
     = @JSON.stringify Sample.host (JSON.Obj [("0", JSON.Num 2); ("b", JSON.Num 1)]).
Proof. split; reflexivity. Qed.

Example sha256_constants :
  List.length SHA256.K = 64%nat
  /\ (nth 0 SHA256.K 0 = 0x428a2f98 /\ nth 63 SHA256.K 0 = 0xc67178f2)%Z
  /\ List.length SHA256.H0 = 8%nat
  /\ (nth 0 SHA256.H0 0 = 0x6a09e667 /\ nth 7 SHA256.H0 0 = 0x5be0cd19)%Z.
Proof. repeat split. Qed.

(** The test vectors of FIPS 180-4. *)
Example sha256_abc :
  Bytes.hex (SHA256.digest (Bytes.TextEncoder_encode "abc"))
  = "ba7816bf8f01cfea414140de5dae2223b00361a396177a9cb410ff61f20015ad".
Proof. vm_compute. reflexivity. Qed.

Example sha256_empty :
  Bytes.hex (SHA256.digest [])
  = "e3b0c44298fc1c149afbf4c8996fb92427ae41e4649b934ca495991b7852b855".
Proof. vm_compute. reflexivity. Qed.

Example sha256_two_blocks :
  Bytes.hex (SHA256.digest (Bytes.TextEncoder_encode
    "abcdbcdecdefdefgefghfghighijhijkijkljklmklmnlmnomnopnopq"))
  = "248d6a61d20638b8e5c026930c3e6039a33ce45964ff2167f6ecedd419db06c1".
Proof. vm_compute. reflexivity. Qed.

Example sample_hostname :
  Sample.hostname "https://www.walmart.com/store/5260" = Returns "www.walmart.com".
Proof. reflexivity. Qed.

Example sample_number_text :
  map Sample.number_text [1700000000000; 0.875; 0.5; -94; 0]%float
  = ["1700000000000"; "0.875"; "0.5"; "-94"; "0"].
Proof. vm_compute. reflexivity. Qed.

(** ** Site resolution and the VERIFY_CONTEXT handler *)

Section Issuance.
Context `{Host}.
Import Background.

Lemma collect_returns (w : World) (position : Location) :
  getCurrentPosition w = Returns position ->
  exists collected, collectContextData w = Returns collected.
Proof.
  intros Hpos. unfold collectContextData, getGeolocationData.
  rewrite Hpos. eexists. reflexivity.
Qed.

Lemma collect_throws (w : World) (message : string) :
  getCurrentPosition w = Throws message ->
  collectContextData w = Throws message.
Proof.
  intros Hpos. unfold collectContextData, getGeolocationData.
  rewrite Hpos. reflexivity.
Qed.

(** The guard on the key pair comes first: nothing else of the request is
    looked at. *)
Lemma request_without_key (w : World) (hash : string) (score : float) (siteUrl : string) :
  requestZKPToken w None hash score siteUrl = Throws "Device key pair not initialized".
Proof. reflexivity. Qed.

Lemma request_unsupported (w : World) (keys : CryptoKeyPair) (hash : string)
    (score : float) (siteUrl : string) :
  getApiEndpoint siteUrl = Returns None ->
  requestZKPToken w (Some keys) hash score siteUrl = Throws "Unsupported shopping site".
Proof.
  intros Hsite. unfold requestZKPToken. rewrite Hsite. reflexivity.
Qed.

Lemma find_none_all {A : Type} (f : A -> bool) (l : list A) :
  (forall x, In x l -> f x = false) -> find f l = None.
Proof.
  induction l as [| x l IH]; intros Hall; [reflexivity |].
  cbn [find]. rewrite (Hall x (or_introl eq_refl)).
  apply IH. intros y Hy. apply Hall. right. exact Hy.
Qed.

(** A URL whose host name, once its first [www.] is removed, contains no
    key of the table has no endpoint. *)
Lemma endpoint_of_unmatched (url hostname : string) :
  URL_hostname url = Returns hostname ->
  (forall site endpoint,
     In (site, endpoint) API_ENDPOINTS ->
     includes (replace hostname "www." "") site = false) ->
  getApiEndpoint url = Returns None.
Proof.
  intros Hhost Hno. unfold getApiEndpoint. rewrite Hhost.
  cbv [mbind outcome_bind bind mret outcome_ret].
  rewrite find_none_all; [reflexivity |].
  intros site Hin. apply in_map_iff in Hin as [[site' endpoint] [<- Hin]].
  exact (Hno site' endpoint Hin).
Qed.

(** C1 (as amended). For every siteUrl that matches no entry of the site
    table, when a device key pair is initialised and the context collection
    succeeds, requestZKPToken raises the error Unsupported shopping site and
    the VERIFY_CONTEXT listener turns it into the degraded success: success
    is true and the token is the object with a null token and a consistency
    score of 0. *)
Theorem unsupported_site_degrades (w : World) (keys : CryptoKeyPair)
    (siteUrl hostname : string) (position : Location) :
  URL_hostname siteUrl = Returns hostname ->
  (forall site endpoint,
     In (site, endpoint) API_ENDPOINTS ->
     includes (replace hostname "www." "") site = false) ->
  getCurrentPosition w = Returns position ->
  (forall hash score,
     requestZKPToken w (Some keys) hash score siteUrl = Throws "Unsupported shopping site")
  /\ onVerifyContext w (Some keys) siteUrl
     = Success {| token := None; consistencyScore := 0 |}.
Proof.
  intros Hhost Hno Hpos.
  pose proof (endpoint_of_unmatched siteUrl hostname Hhost Hno) as Hsite.
  split.
  - intros hash score. now apply request_unsupported.
  - destruct (collect_returns w position Hpos) as [collected Hcollected].
    unfold onVerifyContext. rewrite Hcollected.
    cbv [mbind outcome_bind bind].
    rewrite (request_unsupported w keys _ _ siteUrl Hsite). reflexivity.
Qed.

(** C10. Without a device key pair every token request fails with the
    error Device key pair not initialized, whatever the site, before the
    site is resolved; the VERIFY_CONTEXT reply is then a failure, also for a
    site that is not supported (with that very error once the context was
    collected), so that a success reply, the degraded one included, is only
    sent when a key pair exists. *)
Theorem no_key_pair_fails_first (w : World) (siteUrl : string) :
  (forall hash score,
     requestZKPToken w None hash score siteUrl = Throws "Device key pair not initialized")
  /\ (exists error, onVerifyContext w None siteUrl = Failure error)
  /\ (forall position, getCurrentPosition w = Returns position ->
        onVerifyContext w None siteUrl = Failure "Device key pair not initialized")
  /\ (forall deviceKeyPair t,
        onVerifyContext w deviceKeyPair siteUrl = Success t -> deviceKeyPair <> None).
Proof.
  assert (Hnone : exists error, onVerifyContext w None siteUrl = Failure error
                  /\ forall position, getCurrentPosition w = Returns position ->
                       error = "Device key pair not initialized").
  { unfold onVerifyContext.
    destruct (getCurrentPosition w) as [position | message] eqn:Hpos.
    - destruct (collect_returns w position Hpos) as [collected ->]. cbn.
      eexists. split; [reflexivity | intros; reflexivity].
    - rewrite (collect_throws w message Hpos). cbn.
      eexists. split; [reflexivity | intros; discriminate]. }
  destruct Hnone as (error & Hreply & Herror).
  repeat split.
  - exists error. exact Hreply.
  - intros position Hpos. rewrite Hreply. f_equal. exact (Herror position Hpos).
  - intros deviceKeyPair t Hsuccess ->. rewrite Hreply in Hsuccess. discriminate.
Qed.

End Issuance.

(** A site outside the table, with a key pair: the token request raises an
    error; without a key pair: the reply is a failure. *)
Lemma unsupported_site_raises :
  @Background.getApiEndpoint Sample.host "https://example.com/unrelated" = Returns None
  /\ @Background.requestZKPToken Sample.host Sample.world (Some Sample.keys)
       "3fee" 0.875%float "https://example.com/unrelated"
     = Throws "Unsupported shopping site"
  /\ @Background.onVerifyContext Sample.host Sample.world None
       "https://example.com/unrelated"
     = Failure "Device key pair not initialized".
Proof. repeat split; vm_compute; reflexivity. Qed.

Lemma no_key_pair_fails_first_witness :
  @Background.onVerifyContext Sample.host Sample.world None "https://www.walmart.com/store/1"
  = Failure "Device key pair not initialized".
Proof.
  destruct (@no_key_pair_fails_first Sample.host Sample.world
              "https://www.walmart.com/store/1") as (_ & _ & Hreply & _).
  exact (Hreply _ eq_refl).
Defined.

Lemma unsupported_site_degrades_witness :
  @Background.onVerifyContext Sample.host Sample.world (Some Sample.keys)
    "https://example.com/unrelated"
  = Success {| token := None; consistencyScore := 0 |}.
Proof.
  refine (proj2 (@unsupported_site_degrades Sample.host Sample.world Sample.keys
                   "https://example.com/unrelated" "example.com" _ _ _ _)).
  - reflexivity.
  - intros site endpoint Hin. cbn in Hin.
    repeat (destruct Hin as [[= <- <-] | Hin]; [reflexivity |]). contradiction.
  - reflexivity.
Defined.

(** ** Consistency scoring *)

Section Scoring.
Import Background.
Local Open Scope float_scope.

Lemma max_step_nan (highest : float) : Num.max_step highest nan = nan.
Proof.
  unfold Num.max_step. change (is_nan nan) with true.
  rewrite orb_true_r. reflexivity.
Qed.

Lemma min_step_nan (lowest : float) : Num.min_step lowest nan = nan.
Proof.
  unfold Num.min_step. change (is_nan nan) with true.
  rewrite orb_true_r. reflexivity.
Qed.

Lemma max_step_from_nan (number : float) : Num.max_step nan number = nan.
Proof. reflexivity. Qed.

Lemma min_step_from_nan (number : float) : Num.min_step nan number = nan.
Proof. reflexivity. Qed.

(** Once a [NaN] is met, [Math.max] and [Math.min] stay [NaN]. *)
Lemma fold_max_from_nan (numbers : list float) :
  fold_left Num.max_step numbers nan = nan.
Proof.
  induction numbers as [| number rest IH]; [reflexivity |].
  cbn [fold_left]. rewrite max_step_from_nan. exact IH.
Qed.

Lemma fold_min_from_nan (numbers : list float) :
  fold_left Num.min_step numbers nan = nan.
Proof.
  induction numbers as [| number rest IH]; [reflexivity |].
  cbn [fold_left]. rewrite min_step_from_nan. exact IH.
Qed.

Lemma Math_max_undefined (before after : list Num.arg) :
  Num.Math_max (before ++ Num.Undefined :: after) = nan.
Proof.
  unfold Num.Math_max. rewrite map_app, fold_left_app. cbn [map fold_left Num.ToNumber].
  rewrite max_step_nan. apply fold_max_from_nan.
Qed.

Lemma Math_min_undefined (before after : list Num.arg) :
  Num.Math_min (before ++ Num.Undefined :: after) = nan.
Proof.
  unfold Num.Math_min. rewrite map_app, fold_left_app. cbn [map fold_left Num.ToNumber].
  rewrite min_step_nan. apply fold_min_from_nan.
Qed.

(** A list of timestamps with an [undefined] in it scores [0.5], whatever
    the other timestamps are. *)
Lemma temporal_score_undefined (before after : list Num.arg) :
  temporal_score (before ++ Num.Undefined :: after) = 0.5.
Proof.
  unfold temporal_score. rewrite Math_max_undefined, Math_min_undefined. reflexivity.
Qed.

Lemma temporal_always_half (c : ContextData) : evaluateTemporalConsistency c = 0.5.
Proof.
  unfold evaluateTemporalConsistency, timestamps_of.
  exact (temporal_score_undefined [Num.Number (timestamp c)] _).
Qed.

Lemma location_score_cases (l : Location) :
  ((accuracy l <=? 20) = true /\ evaluateLocationConsistency l = 1)
  \/ ((accuracy l <=? 20) = false /\ evaluateLocationConsistency l = 0.5).
Proof.
  unfold evaluateLocationConsistency.
  destruct (accuracy l <=? 20); [left | right]; split; reflexivity.
Qed.

Lemma temporal_score_cases (timestamps : list Num.arg) :
  temporal_score timestamps = 1 \/ temporal_score timestamps = 0.5.
Proof.
  unfold temporal_score.
  destruct (Num.Math_max timestamps - Num.Math_min timestamps <? 5000); [left | right];
    reflexivity.
Qed.

(** Had every reading a timestamp, readings taken within 5000 ms would
    score [1]: the formula itself is the one of the specification. *)
Example temporal_score_of_numbers :
  temporal_score [Num.Number 1700000002000; Num.Number 1700000000000;
                  Num.Number 1700000000500; Num.Number 1700000001000] = 1
  /\ temporal_score [Num.Number 1700000005000; Num.Number 1700000000000;
                     Num.Number 1700000000500; Num.Number 1700000001000] = 0.5.
Proof. split; reflexivity. Qed.

(** The temporal, motion and network sub-scores being what they are, the
    score only depends on the location sub-score. *)
Lemma score_from_location (c : ContextData) :
  computeConsistencyScore c
  = (evaluateLocationConsistency (location c) + 0.5 + 1 + 1) / 4.
Proof.
  unfold computeConsistencyScore, scores. rewrite (temporal_always_half c).
  cbn [map fst snd fold_left List.length Num.of_nat].
  destruct (location_score_cases (location c)) as [[_ ->] | [_ ->]]; reflexivity.
Qed.

(** C5. For every snapshot the consistency score is the unweighted
    arithmetic mean of the four sub-scores, each of which lies in [0,1],
    and it lies in the closed interval [0,1] itself. *)
Theorem score_is_bounded_mean (c : ContextData) :
  let l := evaluateLocationConsistency (location c) in
  let t := evaluateTemporalConsistency c in
  let m := evaluateMotionConsistency (motion_signature c) in
  let n := evaluateNetworkConsistency (wifi_fingerprint c) in
  computeConsistencyScore c = (l + t + m + n) / 4
  /\ Forall (fun x => (0 <=? x) = true /\ (x <=? 1) = true) [l; t; m; n]
  /\ (0 <=? computeConsistencyScore c) = true
  /\ (computeConsistencyScore c <=? 1) = true.
Proof.
  unfold computeConsistencyScore, scores, evaluateTemporalConsistency.
  cbn [map fst snd fold_left List.length Num.of_nat].
  destruct (location_score_cases (location c)) as [[_ ->] | [_ ->]];
    destruct (temporal_score_cases (timestamps_of c)) as [-> | ->];
    cbv zeta; repeat split; repeat constructor; reflexivity.
Qed.

(** C9. For every snapshot that collectContextData produces, the motion and
    network sub-scores are 1, the temporal sub-score is 0.5 (the location
    reading has no timestamp), the location sub-score is 0.5 or 1, the
    local score is 0.75 or 0.875, and so it is never below the usability
    threshold of 0.7. *)
Theorem collected_score_values `{Host} (w : World) (collected : Collected) :
  collectContextData w = Returns collected ->
  let c := contextData collected in
  evaluateMotionConsistency (motion_signature c) = 1
  /\ evaluateNetworkConsistency (wifi_fingerprint c) = 1
  /\ evaluateTemporalConsistency c = 0.5
  /\ (evaluateLocationConsistency (location c) = 0.5
      \/ evaluateLocationConsistency (location c) = 1)
  /\ collectedScore collected = computeConsistencyScore c
  /\ (collectedScore collected = 0.75 \/ collectedScore collected = 0.875)
  /\ (Content.consistencyThreshold <=? collectedScore collected) = true.
Proof.
  unfold collectContextData, getGeolocationData.
  destruct (getCurrentPosition w) as [position | message]; [| discriminate].
  cbv [mbind outcome_bind bind mret outcome_ret].
  intros [= <-]. cbv zeta. cbn [contextData collectedScore].
  split; [reflexivity |]. split; [reflexivity |].
  split; [apply temporal_always_half |].
  set (c := Build_ContextData _ _ _ _ _).
  rewrite (score_from_location c).
  destruct (location_score_cases (location c)) as [[_ ->] | [_ ->]].
  - split; [right; reflexivity |]. split; [reflexivity |].
    split; [right |]; reflexivity.
  - split; [left; reflexivity |]. split; [reflexivity |].
    split; [left |]; reflexivity.
Qed.

End Scoring.

Lemma collected_score_values_witness :
  exists collected,
    @Background.collectContextData Sample.host Sample.world = Returns collected
    /\ (Background.collectedScore collected = 0.75%float
        \/ Background.collectedScore collected = 0.875%float).
Proof.
  eexists. split; [reflexivity |].
  destruct (@collected_score_values Sample.host Sample.world _ eq_refl)
    as (_ & _ & _ & _ & _ & Hvalues & _).
  exact Hvalues.
Defined.

(** C4 (where the code departs from it). A snapshot as collectContextData
    builds it, with a location accuracy of 10 and every timestamp taken in
    the same millisecond: the location, motion and network sub-scores are
    1, but the temporal sub-score is 0.5 and the aggregate 0.875, not 1. *)
Theorem aligned_snapshot_scores_0875 :
  @Background.collectContextData Sample.host Sample.world
  = Returns {| Background.contextData := Sample.snapshot;
               Background.contextHash :=
                 "3fee00e086571f030abed91a26459fa927213c0f12ae9de280cee83ac2918b2c";
               Background.collectedScore := 0.875 |}
  /\ Background.evaluateLocationConsistency (Background.location Sample.snapshot) = 1%float
  /\ Background.evaluateMotionConsistency (Background.motion_signature Sample.snapshot)
     = 1%float
  /\ Background.evaluateNetworkConsistency (Background.wifi_fingerprint Sample.snapshot)
     = 1%float
  /\ Background.evaluateTemporalConsistency Sample.snapshot = 0.5%float
  /\ Background.computeConsistencyScore Sample.snapshot = 0.875%float.
Proof. repeat split; reflexivity. Qed.

(** ** Context hashing *)

Section Hashing.
Context `{Host}.
Import Background.





End Hashing.


(** ** The verification loop *)

Section Loop.
Import Content.
Local Open Scope list_scope.
Local Open Scope float_scope.

Lemma emitted_app (s s' : State) (effects : list effect) :
  trace s' = trace s ++ effects -> emitted s s' = effects.
Proof.
  intros Htrace. unfold emitted. rewrite Htrace.
  rewrite skipn_app, skipn_all, Nat.sub_diag. reflexivity.
Qed.

Lemma resume_accepts (t : Token) (s : State) :
  (consistencyThreshold <=? consistencyScore t) = true ->
  let s' := verifyContext_resume (Returns (Success t)) s in
  activeToken s' = Some t
  /\ emitted s s'
     = [SetPageToken (Some t);
        Dispatch (secureContextTokenUpdated t (consistencyScore t));
        Dispatch (secureContextStatusChanged "active" (consistencyScore t))].
Proof.
  intros Hscore. cbv zeta. unfold verifyContext_resume. rewrite Hscore.
  split; [reflexivity |]. apply emitted_app. cbn. rewrite <- !app_assoc. reflexivity.
Qed.

Lemma resume_rejects (t : Token) (s : State) :
  (consistencyThreshold <=? consistencyScore t) = false ->
  let s' := verifyContext_resume (Returns (Success t)) s in
  activeToken s' = None
  /\ emitted s s'
     = [ConsoleError "Context verification failed:" "Insufficient consistency score";
        SetPageToken None;
        Dispatch (secureContextVerificationFailed
                    (if Num.truthy (consistencyScore t)
                     then "Insufficient consistency score" else "Verification error")
                    (consistencyScore t))].
Proof.
  intros Hscore. cbv zeta. unfold verifyContext_resume. rewrite Hscore.
  split; [reflexivity |]. apply emitted_app. cbn. rewrite <- !app_assoc. reflexivity.
Qed.

Lemma resume_failure (error : string) (s : State) :
  let s' := verifyContext_resume (Returns (Failure error)) s in
  activeToken s' = None
  /\ emitted s s'
     = [ConsoleError "Context verification failed:" error;
        SetPageToken None;
        Dispatch (secureContextVerificationFailed "Verification error" 0)].
Proof.
  cbv zeta. split; [reflexivity |]. apply emitted_app. cbn.
  rewrite <- !app_assoc. reflexivity.
Qed.

Lemma resume_rejected_promise (message : string) (s : State) :
  let s' := verifyContext_resume (Throws message) s in
  activeToken s' = None
  /\ emitted s s'
     = [ConsoleError "Error during context verification:" message;
        SetPageToken None;
        Dispatch (secureContextVerificationFailed "Verification error" 0)].
Proof.
  cbv zeta. split; [reflexivity |]. apply emitted_app. cbn.
  rewrite <- !app_assoc. reflexivity.
Qed.

(** C3. For every verification response, the token is made the active
    token and the active status is emitted if and only if the response is a
    success whose consistency score is at least 0.7; a response without a
    token activates nothing. A score of exactly 0.7 passes the threshold
    and a score of 0.699 does not. *)
Theorem threshold_gating (s : State) :
  (forall t,
     let s' := verifyContext_resume (Returns (Success t)) s in
     (activeToken s' = Some t
      /\ In (Dispatch (secureContextStatusChanged "active" (consistencyScore t)))
            (emitted s s'))
     <-> (0.7 <=? consistencyScore t) = true)
  /\ (forall response,
        (forall t, response <> Returns (Success t)) ->
        let s' := verifyContext_resume response s in
        activeToken s' = None
        /\ forall score,
             ~ In (Dispatch (secureContextStatusChanged "active" score)) (emitted s s'))
  /\ (forall t, consistencyScore t = 0.7 ->
        activeToken (verifyContext_resume (Returns (Success t)) s) = Some t)
  /\ (forall t, consistencyScore t = 0.699 ->
        activeToken (verifyContext_resume (Returns (Success t)) s) = None).
Proof.
  split; [| split; [| split]].
  - intros t. cbv zeta. split.
    + intros [Hactive _].
      destruct (consistencyThreshold <=? consistencyScore t) eqn:Hscore; [exact Hscore |].
      destruct (resume_rejects t s Hscore) as [Hnone _].
      rewrite Hnone in Hactive. discriminate.
    + intros Hscore. destruct (resume_accepts t s Hscore) as [Hactive Hemitted].
      split; [exact Hactive |]. rewrite Hemitted. cbn. tauto.
  - intros response Hno. cbv zeta.
    destruct response as [[t | error] | message].
    + now contradiction (Hno t).
    + destruct (resume_failure error s) as [Hnone Hemitted].
      split; [exact Hnone |]. intros score Hin.
      rewrite Hemitted in Hin. cbn in Hin. intuition discriminate.
    + destruct (resume_rejected_promise message s) as [Hnone Hemitted].
      split; [exact Hnone |]. intros score Hin.
      rewrite Hemitted in Hin. cbn in Hin. intuition discriminate.
  - intros t Hscore. apply (resume_accepts t s). rewrite Hscore. reflexivity.
  - intros t Hscore. apply (resume_rejects t s). rewrite Hscore. reflexivity.
Qed.

(** A failure has one of two reasons: a score that is a number other than
    zero gives the first, everything else the second. *)
Lemma failure_reasons (t : Token) (s : State) :
  (consistencyThreshold <=? consistencyScore t) = false ->
  Num.truthy (consistencyScore t) = true ->
  emitted s (verifyContext_resume (Returns (Success t)) s)
  = [ConsoleError "Context verification failed:" "Insufficient consistency score";
     SetPageToken None;
     Dispatch (secureContextVerificationFailed "Insufficient consistency score"
                 (consistencyScore t))].
Proof.
  intros Hscore Htruthy. destruct (resume_rejects t s Hscore) as [_ ->].
  rewrite Htruthy. reflexivity.
Qed.

(** C7 (where the code departs from it). A success reply whose score is 0,
    the degraded reply of the background worker for instance, fails the
    threshold: the console is told of an insufficient consistency score, but
    the page is given the reason Verification error, the same reason as for
    a request that could not be completed. *)
Theorem zero_score_reported_as_error (s : State) (message : string) :
  let degraded := {| token := None; consistencyScore := 0 |} in
  emitted s (verifyContext_resume (Returns (Success degraded)) s)
  = [ConsoleError "Context verification failed:" "Insufficient consistency score";
     SetPageToken None;
     Dispatch (secureContextVerificationFailed "Verification error" 0)]
  /\ emitted s (verifyContext_resume (Throws message) s)
     = [ConsoleError "Error during context verification:" message;
        SetPageToken None;
        Dispatch (secureContextVerificationFailed "Verification error" 0)].
Proof.
  cbv zeta. split.
  - now destruct (resume_rejects {| token := None; consistencyScore := 0 |} s eq_refl)
      as [_ ->].
  - apply resume_rejected_promise.
Qed.

(** *** Timers *)

Lemma resume_keeps_timers (response : outcome Reply) (s : State) :
  armed (verifyContext_resume response s) = armed s
  /\ verificationInterval (verifyContext_resume response s) = verificationInterval s
  /\ in_flight (verifyContext_resume response s) = in_flight s.
Proof.
  unfold verifyContext_resume.
  destruct response as [[t | error] | message]; [| repeat split | repeat split].
  destruct (consistencyThreshold <=? consistencyScore t); repeat split.
Qed.

Lemma clear_only_timer (id : nat) : filter (fun t => negb (Nat.eqb t id)) [id] = [].
Proof. cbn. rewrite Nat.eqb_refl. reflexivity. Qed.

Lemma start_timers_ok (s : State) : timers_ok s -> timers_ok (startContextVerification s).
Proof.
  unfold timers_ok, startContextVerification.
  destruct (verificationInterval s) as [id |]; cbn; intros ->.
  - rewrite clear_only_timer. reflexivity.
  - reflexivity.
Qed.

Lemma stop_timers_ok (s : State) : timers_ok s -> timers_ok (stopContextVerification s).
Proof.
  unfold timers_ok, stopContextVerification.
  destruct (verificationInterval s) as [id |] eqn:Hstored; cbn; intros Harmed.
  - rewrite Harmed. apply clear_only_timer.
  - rewrite Hstored. exact Harmed.
Qed.

Lemma step_timers_ok (i : input) (s s' : State) :
  timers_ok s -> step i s = Some s' -> timers_ok s'.
Proof.
  intros Hok. destruct i as [[] | id | response]; cbn.
  - intros [= <-]. now apply start_timers_ok.
  - intros [= <-]. now apply stop_timers_ok.
  - destruct (existsb (Nat.eqb id) (armed s)); intros [= <-]. exact Hok.
  - destruct (in_flight s) as [| n]; intros [= <-].
    unfold timers_ok.
    destruct (resume_keeps_timers response (set_in_flight n s)) as (-> & -> & _).
    exact Hok.
Qed.

(** In every state the script can be in, the armed timers are the one it
    remembers. *)
Lemma run_timers_ok (inputs : list input) (s s' : State) :
  timers_ok s -> run inputs s = Some s' -> timers_ok s'.
Proof.
  revert s. induction inputs as [| i rest IH]; intros s Hok; cbn.
  - intros [= <-]. exact Hok.
  - destruct (step i s) as [s1 |] eqn:Hstep; [| discriminate].
    apply IH. exact (step_timers_ok i s s1 Hok Hstep).
Qed.

(** C6 (as amended). In every state the script can reach, stop cancels the
    timer, clears the active token and emits the inactive status event,
    after which no timer fires; the replies that were awaited are still
    awaited, and a reply that arrives after stop is handled like any other:
    a success whose score passes the threshold makes its token the active
    one and emits the active status. *)
Theorem stop_cancels_timer_not_replies (inputs : list input) (s : State) :
  run inputs loaded = Some s ->
  let s' := stopContextVerification s in
  verificationInterval s' = None
  /\ armed s' = []
  /\ activeToken s' = None
  /\ emitted s s' = [Dispatch (secureContextStatusChanged "inactive" 0)]
  /\ (forall id, step (Tick id) s' = None)
  /\ in_flight s' = in_flight s
  /\ (forall t,
        in_flight s <> 0%nat ->
        (consistencyThreshold <=? consistencyScore t) = true ->
        exists s'',
          step (Replied (Returns (Success t))) s' = Some s''
          /\ activeToken s'' = Some t
          /\ In (Dispatch (secureContextStatusChanged "active" (consistencyScore t)))
                (emitted s' s'')).
Proof.
  intros Hrun. cbv zeta.
  assert (Hok : timers_ok s) by (apply (run_timers_ok inputs loaded s); [reflexivity | exact Hrun]).
  assert (Hstopped : timers_ok (stopContextVerification s)) by now apply stop_timers_ok.
  assert (Hinterval : verificationInterval (stopContextVerification s) = None).
  { unfold stopContextVerification.
    destruct (verificationInterval s) as [id |] eqn:Hstored; cbn; [reflexivity | exact Hstored]. }
  assert (Harmed : armed (stopContextVerification s) = []).
  { unfold timers_ok in Hstopped. rewrite Hinterval in Hstopped. exact Hstopped. }
  assert (Hflight : in_flight (stopContextVerification s) = in_flight s).
  { unfold stopContextVerification. destruct (verificationInterval s); reflexivity. }
  split; [exact Hinterval |]. split; [exact Harmed |]. split; [reflexivity |].
  split; [| split; [| split; [exact Hflight |]]].
  - apply emitted_app. unfold stopContextVerification.
    destruct (verificationInterval s); reflexivity.
  - intros id. cbn [step]. rewrite Harmed. reflexivity.
  - intros t Hpending Hscore. cbn [step]. rewrite Hflight.
    destruct (in_flight s) as [| n]; [contradiction |].
    eexists. split; [reflexivity |].
    pose proof (resume_accepts t (set_in_flight n (stopContextVerification s)) Hscore)
      as [Hactive Hemitted].
    split; [exact Hactive |].
    change (emitted (stopContextVerification s) ?x)
      with (emitted (set_in_flight n (stopContextVerification s)) x).
    rewrite Hemitted. cbn. tauto.
Qed.

End Loop.

Lemma threshold_gating_witness :
  Content.activeToken
    (Content.verifyContext_resume
       (Returns (Success {| token := Some "t0"; consistencyScore := 0.7 |})) Content.loaded)
  = Some {| token := Some "t0"; consistencyScore := 0.7 |}
  /\ Content.activeToken
       (Content.verifyContext_resume
          (Returns (Success {| token := Some "t0"; consistencyScore := 0.699 |}))
          Content.loaded)
     = None
  /\ Content.activeToken
       (Content.verifyContext_resume (Returns (Failure "Failed to obtain ZKP token"))
          Content.loaded)
     = None.
Proof.
  destruct (threshold_gating Content.loaded) as (_ & Hnone & Hat & Hbelow).
  split; [apply Hat; reflexivity |]. split; [apply Hbelow; reflexivity |].
  apply Hnone. discriminate.
Defined.

(** The reply of the background worker for a site outside its table, as
    the content script reports it. *)
Example degraded_reply_reason :
  Content.emitted Content.loaded
    (Content.verifyContext_resume
       (Returns (@Background.onVerifyContext Sample.host Sample.world (Some Sample.keys)
                   "https://example.com/unrelated"))
       Content.loaded)
  = [Content.ConsoleError "Context verification failed:" "Insufficient consistency score";
     Content.SetPageToken None;
     Content.Dispatch (Content.secureContextVerificationFailed "Verification error" 0)].
Proof. vm_compute. reflexivity. Qed.

(** Start, stop, and then the reply to the message that start had sent: the
    token of the reply becomes the active token and the active status
    follows the inactive one. *)
Lemma reply_after_stop_reactivates :
  (Content.activeToken <$>
     Content.run [Content.NavigationChange true; Content.NavigationChange false;
                  Content.Replied (Returns (Success Sample.active))] Content.loaded)
  = Some (Some Sample.active)
  /\ (Content.trace <$>
        Content.run [Content.NavigationChange true; Content.NavigationChange false;
                     Content.Replied (Returns (Success Sample.active))] Content.loaded)
     = Some [Content.Dispatch (Content.secureContextStatusChanged "inactive" 0);
             Content.SetPageToken (Some Sample.active);
             Content.Dispatch (Content.secureContextTokenUpdated Sample.active 0.875);
             Content.Dispatch (Content.secureContextStatusChanged "active" 0.875)].
Proof. split; reflexivity. Qed.

Lemma stop_cancels_timer_not_replies_witness :
  let s := Content.startContextVerification Content.loaded in
  Content.run [Content.NavigationChange true] Content.loaded = Some s
  /\ Content.armed s = [1%nat]
  /\ Content.armed (Content.stopContextVerification s) = []
  /\ (forall id, Content.step (Content.Tick id) (Content.stopContextVerification s) = None).
Proof.
  cbv zeta. split; [reflexivity |]. split; [reflexivity |].
  destruct (stop_cancels_timer_not_replies [Content.NavigationChange true]
              (Content.startContextVerification Content.loaded) eq_refl)
    as (_ & Harmed & _ & _ & Hticks & _).
  split; [exact Harmed | exact Hticks].
Defined.

(** ** The fetch interceptor *)

Section Interceptor.
Context `{Host}.
Import Content.

Lemma intercept_matching (hostname url : string) (init : option RequestInit)
    (activeToken : option Token) (domain : string) (site : Site) :
  getCurrentSite hostname = Some (domain, site) ->
  includes url (apiPattern site) = true ->
  intercept hostname activeToken (url, init)
  = (url,
     Some {| init_headers :=
               Some match activeToken with
                    | Some t =>
                        <["X-Shopping-Site" := Some domain]>
                          (<["X-Context-Consistency-Score" :=
                               Some (Number_toString (consistencyScore t))]>
                             (<["X-Secure-Context-Token" := token t]> (headers_of init)))
                    | None => headers_of init
                    end;
             init_others := default [] (init_others <$> init) |}).
Proof.
  intros Hsite Hurl. unfold intercept. rewrite Hsite. cbn [fst snd]. rewrite Hurl.
  destruct init as [[headers others] |]; reflexivity.
Qed.

Lemma intercept_other_site (hostname url : string) (init : option RequestInit)
    (activeToken : option Token) :
  (forall domain site,
     getCurrentSite hostname = Some (domain, site) -> includes url (apiPattern site) = false) ->
  intercept hostname activeToken (url, init) = (url, init).
Proof.
  intros Hno. unfold intercept.
  destruct (getCurrentSite hostname) as [[domain site] |] eqn:Hsite; [| reflexivity].
  cbn [fst]. rewrite (Hno domain site eq_refl). reflexivity.
Qed.

Lemma current_site_is_supported (hostname domain : string) (site : Site) :
  getCurrentSite hostname = Some (domain, site) -> In (domain, site) SUPPORTED_SITES.
Proof.
  unfold getCurrentSite. intros Hfound.
  apply find_some in Hfound. exact (proj1 Hfound).
Qed.

(** The frame of the wrapper on a URL string and a plain headers object:
    the URL and the properties of the second argument other than headers
    are handed on unchanged, and so is every header that is not one of the
    three attestation headers. If the URL contains the apiPattern of the
    current site and a token is active, the three attestation headers carry
    the token, the text of its consistency score and the site's domain. If
    no token is active, the headers are those of the call; the arguments
    themselves are unchanged when the URL does not contain the apiPattern of
    the current site. A URL that contains the apiPattern of no supported
    site never gains a header: the arguments are unchanged. *)
Theorem interceptor_frame (hostname url : string) (init : option RequestInit)
    (activeToken : option Token) :
  let result := intercept hostname activeToken (url, init) in
  fst result = url
  /\ default [] (init_others <$> snd result) = default [] (init_others <$> init)
  /\ (forall name : string,
        ~ In name attestation_headers ->
        headers_of (snd result) !! name = headers_of init !! name)
  /\ (forall domain site t,
        getCurrentSite hostname = Some (domain, site) ->
        includes url (apiPattern site) = true ->
        activeToken = Some t ->
        headers_of (snd result) !! "X-Secure-Context-Token" = Some (token t)
        /\ headers_of (snd result) !! "X-Context-Consistency-Score"
           = Some (Some (Number_toString (consistencyScore t)))
        /\ headers_of (snd result) !! "X-Shopping-Site" = Some (Some domain))
  /\ (activeToken = None -> headers_of (snd result) = headers_of init)
  /\ ((forall domain site,
         getCurrentSite hostname = Some (domain, site) ->
         includes url (apiPattern site) = false) ->
      result = (url, init))
  /\ ((forall domain site,
         In (domain, site) SUPPORTED_SITES -> includes url (apiPattern site) = false) ->
      result = (url, init)).
Proof.
  cbv zeta.
  assert (Hother : (forall domain site,
                      getCurrentSite hostname = Some (domain, site) ->
                      includes url (apiPattern site) = false) ->
                   intercept hostname activeToken (url, init) = (url, init))
    by apply intercept_other_site.
  destruct (getCurrentSite hostname) as [[domain site] |] eqn:Hsite.
  - destruct (includes url (apiPattern site)) eqn:Hurl.
    + rewrite (intercept_matching hostname url init activeToken domain site Hsite Hurl).
      cbn [fst snd].
      change (headers_of (Some {| init_headers := Some ?h; init_others := ?o |})) with h.
      split; [reflexivity |]. split; [reflexivity |]. split.
      { intros name Hname. destruct activeToken as [t |]; [| reflexivity].
        rewrite !lookup_insert_ne; [reflexivity | | |];
          intros <-; apply Hname; cbn; tauto. }
      split.
      { intros domain' site' t [= <- <-] _ ->.
        split; [| split].
        - rewrite !lookup_insert_ne by discriminate. apply lookup_insert_eq.
        - rewrite lookup_insert_ne by discriminate. apply lookup_insert_eq.
        - apply lookup_insert_eq. }
      split.
      { intros ->. reflexivity. }
      split.
      { intros Hno. rewrite (Hno domain site eq_refl) in Hurl. discriminate. }
      { intros Hno.
        rewrite (Hno domain site (current_site_is_supported hostname domain site Hsite))
          in Hurl. discriminate. }
    + rewrite Hother by (intros domain' site' [= <- <-]; exact Hurl).
      cbn [fst snd].
      split; [reflexivity |]. split; [reflexivity |]. split; [reflexivity |].
      split; [| split; [| split]]; try reflexivity.
      intros domain' site' t [= <- <-] Hyes. rewrite Hyes in Hurl. discriminate.
  - rewrite Hother by discriminate.
    cbn [fst snd].
    split; [reflexivity |]. split; [reflexivity |]. split; [reflexivity |].
    split; [| split; [| split]]; try reflexivity.
    discriminate.
Qed.

End Interceptor.

(** No token is active and the URL is one of the current site's API: the
    call that had no second argument goes on with one. *)
Lemma no_token_call_gains_init :
  Content.getCurrentSite "www.walmart.com"
  = Some ("walmart.com",
          {| Content.apiPattern := "api.walmart.com"; Content.storePattern := "/store/" |})
  /\ @Content.intercept Sample.host "www.walmart.com" None
       ("https://api.walmart.com/secure-context/orders", None)
     = ("https://api.walmart.com/secure-context/orders",
        Some {| Content.init_headers := Some ∅; Content.init_others := [] |}).
Proof. split; reflexivity. Qed.

Lemma interceptor_frame_witness :
  let result :=
    @Content.intercept Sample.host "www.walmart.com" (Some Sample.active)
      ("https://api.walmart.com/secure-context/orders", None) in
  Content.headers_of (snd result) !! "X-Secure-Context-Token" = Some (Some "t0")
  /\ Content.headers_of (snd result) !! "X-Context-Consistency-Score" = Some (Some "0.875")
  /\ Content.headers_of (snd result) !! "X-Shopping-Site" = Some (Some "walmart.com")
  /\ @Content.intercept Sample.host "www.walmart.com" (Some Sample.active)
       ("https://example.com/unrelated", None)
     = ("https://example.com/unrelated", None).
Proof.
  cbv zeta.
  destruct (@interceptor_frame Sample.host "www.walmart.com"
              "https://api.walmart.com/secure-context/orders" None (Some Sample.active))
    as (_ & _ & _ & Hheaders & _).
  destruct (Hheaders "walmart.com" _ Sample.active eq_refl eq_refl eq_refl)
    as (Htoken & Hscore & Hsite).
  split; [exact Htoken |]. split; [exact Hscore |]. split; [exact Hsite |].
  destruct (@interceptor_frame Sample.host "www.walmart.com"
              "https://example.com/unrelated" None (Some Sample.active))
    as (_ & _ & _ & _ & _ & _ & Hunrelated).
  apply Hunrelated.
  intros domain site Hin. cbn in Hin.
  repeat (destruct Hin as [[= <- <-] | Hin]; [reflexivity |]). contradiction.
Defined.

(** * Further properties of the code *)

(** ** Substrings *)

Section Substrings.

Lemma append_cons (c : ascii) (a b : string) : String c a ++ b = String c (a ++ b).
Proof. reflexivity. Qed.

Lemma includes_unfold (s sub : string) :
  includes s sub
  = String.prefix sub s
    || match s with
       | EmptyString => false
       | String _ s' => includes s' sub
       end.
Proof. destruct s; reflexivity. Qed.

Lemma prefix_app (sub rest : string) : String.prefix sub (sub ++ rest) = true.
Proof.
  induction sub as [| c sub IH]; [destruct rest; reflexivity |].
  rewrite append_cons. cbn [String.prefix].
  destruct (ascii_dec c c); [exact IH | contradiction].
Qed.

Lemma prefix_split (sub s : string) :
  String.prefix sub s = true -> exists rest, s = sub ++ rest.
Proof.
  revert s. induction sub as [| c sub IH]; intros s Hprefix.
  - exists s. reflexivity.
  - destruct s as [| c' s]; [discriminate |].
    cbn [String.prefix] in Hprefix.
    destruct (ascii_dec c c') as [<- |]; [| discriminate].
    destruct (IH s Hprefix) as [rest ->]. exists rest. reflexivity.
Qed.

(** [includes] is containment anywhere in the string. *)
Lemma includes_intro (a sub b : string) : includes (a ++ sub ++ b) sub = true.
Proof.
  induction a as [| c a IH].
  - change ("" ++ sub ++ b) with (sub ++ b).
    rewrite includes_unfold, prefix_app. reflexivity.
  - rewrite append_cons, includes_unfold, IH. apply orb_true_r.
Qed.

Lemma includes_split (s sub : string) :
  includes s sub = true -> exists a b, s = a ++ sub ++ b.
Proof.
  induction s as [| c s IH]; rewrite includes_unfold; intros Hin;
    apply orb_true_iff in Hin as [Hprefix | Hrest].
  - destruct (prefix_split sub "" Hprefix) as [rest ->]. exists "", rest. reflexivity.
  - discriminate.
  - destruct (prefix_split sub (String c s) Hprefix) as [rest ->].
    exists "", rest. reflexivity.
  - destruct (IH Hrest) as (a & b & ->). exists (String c a), b. reflexivity.
Qed.

End Substrings.

(** ** Site resolution *)

Section Resolution.
Context `{Host}.
Import Background.

(** [find] and then the lookup of what it found, on any table: the value
    of the first entry whose key passes the test. *)
Lemma resolve_first_match {V : Type} (f : string -> bool) (table : list (string * V))
    (v : V) :
  match find f (map fst table) with
  | Some key => property table key
  | None => None
  end = Some v
  <-> exists before key after,
        table = (before ++ (key, v) :: after)%list
        /\ f key = true
        /\ Forall (fun entry => f (fst entry) = false) before.
Proof.
  induction table as [| [k v'] table IH].
  - split; [discriminate |]. intros (before & key & after & Heq & _).
    destruct before; discriminate.
  - cbn [map fst find]. destruct (f k) eqn:Hk.
    + cbn [property]. rewrite String.eqb_refl. split.
      * intros [= <-]. exists [], k, table. repeat split; [exact Hk | constructor].
      * intros (before & key & after & Heq & Hkey & Hbefore).
        destruct before as [| [k0 v0] before].
        -- injection Heq as -> -> _. reflexivity.
        -- injection Heq as <- <- _. inversion Hbefore as [| ? ? Hfalse _]; subst.
           cbn in Hfalse. rewrite Hk in Hfalse. discriminate.
    + transitivity (match find f (map fst table) with
                    | Some key => property table key
                    | None => None
                    end = Some v).
      * destruct (find f (map fst table)) as [key |] eqn:Hfound; [| reflexivity].
        cbn [property]. destruct (String.eqb k key) eqn:Heqb; [| reflexivity].
        apply String.eqb_eq in Heqb as <-.
        apply find_some in Hfound as [_ Htrue]. rewrite Hk in Htrue. discriminate.
      * rewrite IH. split.
        -- intros (before & key & after & -> & Hkey & Hbefore).
           exists ((k, v') :: before), key, after.
           repeat split; [exact Hkey | constructor; [exact Hk | exact Hbefore]].
        -- intros (before & key & after & Heq & Hkey & Hbefore).
           destruct before as [| [k0 v0] before].
           ++ injection Heq as <- _ _. rewrite Hk in Hkey. discriminate.
           ++ injection Heq as _ _ ->. inversion Hbefore; subst.
              exists before, key, after. repeat split; assumption.
Qed.

Lemma Returns_inj {A : Type} (a b : A) : Returns a = Returns b -> a = b.
Proof. congruence. Qed.

Lemma getApiEndpoint_unfold (url hostname : string) :
  URL_hostname url = Returns hostname ->
  getApiEndpoint url
  = Returns match find (fun site => includes (replace hostname "www." "") site)
                    (map fst API_ENDPOINTS) with
            | Some site => property API_ENDPOINTS site
            | None => None
            end.
Proof. intros Hhost. unfold getApiEndpoint. rewrite Hhost. reflexivity. Qed.

(** X1. The endpoint of a URL is that of the first entry of the table, in the
    order it is written, whose key occurs in the host name once its first
    www. is removed; a later entry whose key occurs as well is not used. *)
Theorem first_matching_site_wins (url hostname endpoint : string) :
  URL_hostname url = Returns hostname ->
  getApiEndpoint url = Returns (Some endpoint)
  <-> exists before site after,
        API_ENDPOINTS = (before ++ (site, endpoint) :: after)%list
        /\ includes (replace hostname "www." "") site = true
        /\ Forall (fun entry => includes (replace hostname "www." "") (fst entry) = false)
                  before.
Proof.
  intros Hhost. rewrite (getApiEndpoint_unfold url hostname Hhost).
  pose proof (resolve_first_match
                (fun site => includes (replace hostname "www." "") site)
                API_ENDPOINTS endpoint) as Hfirst.
  cbv beta in Hfirst.
  split.
  - intros Hfound. apply Hfirst. exact (Returns_inj _ _ Hfound).
  - intros Hentry. f_equal. apply Hfirst. exact Hentry.
Qed.

(** X2. A site is supported exactly when a key of the table occurs anywhere in
    its host name (first www. removed): at the end, as for a subdomain, but
    also in the middle or at the start of a longer name. *)
Theorem supported_iff_key_occurs (url hostname : string) :
  URL_hostname url = Returns hostname ->
  (exists endpoint, getApiEndpoint url = Returns (Some endpoint))
  <-> exists site endpoint a b,
        In (site, endpoint) API_ENDPOINTS
        /\ replace hostname "www." "" = a ++ site ++ b.
Proof.
  intros Hhost. rewrite (getApiEndpoint_unfold url hostname Hhost).
  set (domain := replace hostname "www." "").
  split.
  - intros [endpoint Hfound]. apply Returns_inj in Hfound.
    apply (resolve_first_match (fun site => includes domain site)) in Hfound
      as (before & site & after & Htable & Hsite & _).
    destruct (includes_split domain site Hsite) as (a & b & Hsplit).
    exists site, endpoint, a, b. split; [| exact Hsplit].
    rewrite Htable. apply in_elt.
  - intros (site & endpoint & a & b & Hin & Hsplit).
    destruct (find (fun site => includes domain site) (map fst API_ENDPOINTS))
      as [key |] eqn:Hfound.
    + apply find_some in Hfound as [Hkey _].
      apply in_map_iff in Hkey as [[key' endpoint'] [<- Hkey]].
      cbn in Hkey.
      repeat (destruct Hkey as [[= <- <-] | Hkey]; [eexists; reflexivity |]).
      contradiction.
    + exfalso.
      assert (Hoccurs : includes domain site = true)
        by (rewrite Hsplit; apply includes_intro).
      rewrite (find_none _ _ Hfound site) in Hoccurs; [discriminate |].
      apply in_map_iff. exists (site, endpoint). split; [reflexivity | exact Hin].
Qed.

(** X3. The table of the background worker and the table of the content script
    name the same sites in the same order: a page has a site for the
    content script exactly when its URL has an endpoint for the background
    worker, and the endpoint is https:// followed by the apiPattern of that
    site and /secure-context. *)
Theorem tables_agree (url hostname : string) :
  URL_hostname url = Returns hostname ->
  getApiEndpoint url
  = Returns match Content.getCurrentSite hostname with
            | Some (_, site) => Some ("https://" ++ Content.apiPattern site ++ "/secure-context")
            | None => None
            end.
Proof.
  intros Hhost. rewrite (getApiEndpoint_unfold url hostname Hhost).
  unfold Content.getCurrentSite.
  set (domain := replace hostname "www." "").
  cbn [map fst API_ENDPOINTS Content.SUPPORTED_SITES find].
  repeat (destruct (includes domain _); [reflexivity |]).
  reflexivity.
Qed.

End Resolution.

Lemma first_matching_site_wins_witness :
  @Background.getApiEndpoint Sample.host "https://www.walmart.com/store/5260"
  = Returns (Some "https://api.walmart.com/secure-context").
Proof.
  apply (@first_matching_site_wins Sample.host "https://www.walmart.com/store/5260"
           "www.walmart.com" _ eq_refl).
  exists [], "walmart.com", (tl Background.API_ENDPOINTS).
  split; [reflexivity |]. split; [reflexivity | constructor].
Defined.

Lemma supported_iff_key_occurs_witness :
  exists endpoint,
    @Background.getApiEndpoint Sample.host "https://walmart.com.example.org/"
    = Returns (Some endpoint).
Proof.
  apply (@supported_iff_key_occurs Sample.host "https://walmart.com.example.org/"
           "walmart.com.example.org" eq_refl).
  exists "walmart.com", "https://api.walmart.com/secure-context", "", ".example.org".
  split; [left; reflexivity | reflexivity].
Defined.

Lemma tables_agree_witness :
  @Background.getApiEndpoint Sample.host "https://www.target.com/p/1"
  = Returns (Some "https://api.target.com/secure-context").
Proof.
  exact (@tables_agree Sample.host "https://www.target.com/p/1" "www.target.com" eq_refl).
Defined.

(** ** Hexadecimal rendering and the shape of the digest *)

Section Hexadecimal.
Import Observe.
Local Open Scope list_scope.

Definition render (b : Z) : string := Bytes.padStart0 2 (Bytes.toString 16 b).

Definition renders_well (n : nat) : bool :=
  match render (Z.of_nat n) with
  | String c1 (String c2 EmptyString) =>
      is_hex_digit c1 && is_hex_digit c2
      && (16 * digit_value c1 + digit_value c2 =? Z.of_nat n)%Z
  | _ => false
  end.

Lemma all_bytes_render_well : forallb renders_well (seq 0 256) = true.
Proof. vm_compute. reflexivity. Qed.

(** Every byte is written as two hexadecimal digits that read back as the
    byte: the padding makes the bytes below 16 two digits wide. *)
Lemma render_byte (b : Z) :
  is_byte b ->
  exists c1 c2,
    render b = String c1 (String c2 EmptyString)
    /\ is_hex_digit c1 = true /\ is_hex_digit c2 = true
    /\ (16 * digit_value c1 + digit_value c2)%Z = b.
Proof.
  intros [Hlow Hhigh].
  assert (Hin : In (Z.to_nat b) (seq 0 256)) by (apply in_seq; lia).
  pose proof (proj1 (forallb_forall _ _) all_bytes_render_well _ Hin) as Hwell.
  unfold renders_well in Hwell. rewrite Z2Nat.id in Hwell by exact Hlow.
  destruct (render b) as [| c1 [| c2 [| ? ?]]]; try discriminate.
  apply andb_true_iff in Hwell as [Hdigits Hvalue].
  apply andb_true_iff in Hdigits as [H1 H2].
  exists c1, c2. repeat split; [exact H1 | exact H2 | now apply Z.eqb_eq].
Qed.

Lemma hex_cons (b : Z) (bytes : list Z) :
  Bytes.hex (b :: bytes) = (render b ++ Bytes.hex bytes)%string.
Proof. reflexivity. Qed.

Lemma hex_shape (bytes : list Z) :
  Forall is_byte bytes ->
  String.length (Bytes.hex bytes) = (2 * List.length bytes)%nat
  /\ all_hex (Bytes.hex bytes) = true
  /\ unhex (Bytes.hex bytes) = Some bytes.
Proof.
  induction 1 as [| b bytes Hb _ (IHlength & IHdigits & IHread)].
  - repeat split.
  - destruct (render_byte b Hb) as (c1 & c2 & Hrender & H1 & H2 & Hvalue).
    rewrite hex_cons, Hrender.
    change (String c1 (String c2 EmptyString) ++ Bytes.hex bytes)%string
      with (String c1 (String c2 (Bytes.hex bytes))).
    repeat split.
    + cbn [String.length List.length]. rewrite IHlength. lia.
    + unfold all_hex in *. cbn [list_ascii_of_string forallb].
      rewrite H1, H2, IHdigits. reflexivity.
    + cbn [unhex]. rewrite IHread, Hvalue. reflexivity.
Qed.

(** X5. The hexadecimal text of a byte array (a signature, an exported key, a
    digest) has two digits per byte, and two byte arrays with the same text
    are the same array. *)
Theorem hex_is_lossless (bytes1 bytes2 : list Z) :
  Forall is_byte bytes1 ->
  Forall is_byte bytes2 ->
  String.length (Bytes.hex bytes1) = (2 * List.length bytes1)%nat
  /\ (Bytes.hex bytes1 = Bytes.hex bytes2 -> bytes1 = bytes2).
Proof.
  intros Hbytes1 Hbytes2.
  destruct (hex_shape bytes1 Hbytes1) as (Hlength & _ & Hread1).
  destruct (hex_shape bytes2 Hbytes2) as (_ & _ & Hread2).
  split; [exact Hlength |].
  intros Hsame. rewrite Hsame in Hread1. congruence.
Qed.

Lemma be_bytes_are_bytes (n : nat) (x : Z) :
  Forall is_byte (SHA256.be_bytes n x) /\ List.length (SHA256.be_bytes n x) = n.
Proof.
  induction n as [| n [IHbytes IHlength]]; [split; [constructor | reflexivity] |].
  cbn [SHA256.be_bytes List.length]. split; [| now rewrite IHlength].
  constructor; [| exact IHbytes].
  unfold is_byte. apply Z.mod_pos_bound. lia.
Qed.

Lemma words_to_bytes (h : list Z) :
  Forall is_byte (flat_map (SHA256.be_bytes 4) h)
  /\ List.length (flat_map (SHA256.be_bytes 4) h) = (4 * List.length h)%nat.
Proof.
  induction h as [| x h [IHbytes IHlength]]; [split; [constructor | reflexivity] |].
  cbn [flat_map]. destruct (be_bytes_are_bytes 4 x) as [Hbytes Hlength].
  split.
  - apply Forall_app. split; assumption.
  - rewrite length_app, Hlength, IHlength. cbn [List.length]. lia.
Qed.

Lemma compress_keeps_eight (blocks : list (list Z)) (h : list Z) :
  List.length h = 8%nat -> List.length (fold_left SHA256.compress blocks h) = 8%nat.
Proof.
  revert h. induction blocks as [| block blocks IH]; intros h Hh; [exact Hh |].
  cbn [fold_left]. apply IH. reflexivity.
Qed.

(** Whatever the message, the digest is 32 bytes. *)
Lemma digest_is_32_bytes (msg : list Z) :
  Forall is_byte (SHA256.digest msg) /\ List.length (SHA256.digest msg) = 32%nat.
Proof.
  unfold SHA256.digest. cbv zeta.
  set (h := fold_left SHA256.compress _ SHA256.H0).
  assert (Hh : List.length h = 8%nat) by (apply compress_keeps_eight; reflexivity).
  destruct (words_to_bytes h) as [Hbytes Hlength].
  split; [exact Hbytes | rewrite Hlength, Hh; reflexivity].
Qed.

(** X4. For every object, also an empty one, and whatever the text of its
    numbers, the context hash is a string of exactly 64 characters, all of
    them digits or letters from a to f in lower case. *)
Theorem context_hash_is_64_hex_digits `{Host} (contextData : JSON.value) :
  String.length (Background.generateContextHash contextData) = 64%nat
  /\ all_hex (Background.generateContextHash contextData) = true.
Proof.
  unfold Background.generateContextHash. cbv zeta.
  destruct (digest_is_32_bytes
              (Bytes.TextEncoder_encode (JSON.stringify contextData)))
    as [Hbytes Hlength].
  destruct (hex_shape _ Hbytes) as (Htext & Hdigits & _).
  split; [rewrite Htext, Hlength; reflexivity | exact Hdigits].
Qed.

End Hexadecimal.

Lemma hex_is_lossless_witness :
  String.length (Bytes.hex [1; 16]%Z) = 4%nat
  /\ (Bytes.hex [1; 16]%Z = Bytes.hex [1; 16]%Z -> [1; 16]%Z = [1; 16]%Z).
Proof.
  apply (hex_is_lossless [1; 16]%Z [1; 16]%Z);
    repeat constructor; unfold Observe.is_byte; lia.
Defined.

(** ** The context hash and the order of the properties *)

Section HashOrder.
Context `{Host}.
Import Background Observe.










End HashOrder.


(** ** More on scoring and on the VERIFY_CONTEXT handler *)

Section Handler.
Context `{Host}.
Import Background.
Local Open Scope float_scope.

(** X6. For every snapshot that collectContextData produces, whatever the
    clock readings, the local score is decided by the accuracy of the
    position alone: 0.875 when the accuracy is at most 20, and 0.75 in
    every other case. *)
Theorem collected_score_decided_by_accuracy (w : World) (position : Location)
    (collected : Collected) :
  getCurrentPosition w = Returns position ->
  collectContextData w = Returns collected ->
  collectedScore collected = (if accuracy position <=? 20 then 0.875 else 0.75).
Proof.
  intros Hposition. unfold collectContextData, getGeolocationData. rewrite Hposition.
  cbv [mbind outcome_bind bind mret outcome_ret].
  intros [= <-]. cbn [collectedScore].
  rewrite score_from_location. unfold evaluateLocationConsistency.
  cbn [location accuracy].
  destruct (accuracy position <=? 20); reflexivity.
Qed.

(** X7. The handler recognises the unsupported site by the message of the error
    alone. Once the context is collected, every error with the message
    Unsupported shopping site that the token request raises, wherever it
    comes from, is answered by the degraded success, and no failure reply
    ever carries that message. *)
Theorem unsupported_message_is_never_reported (w : World)
    (deviceKeyPair : option CryptoKeyPair) (siteUrl : string) (collected : Collected) :
  collectContextData w = Returns collected ->
  (requestZKPToken w deviceKeyPair (contextHash collected) (collectedScore collected)
     siteUrl = Throws "Unsupported shopping site" ->
   onVerifyContext w deviceKeyPair siteUrl
   = Success {| token := None; consistencyScore := 0 |})
  /\ onVerifyContext w deviceKeyPair siteUrl <> Failure "Unsupported shopping site".
Proof.
  intros Hcollected. unfold onVerifyContext. rewrite Hcollected.
  cbv [mbind outcome_bind bind].
  destruct (requestZKPToken w deviceKeyPair (contextHash collected)
              (collectedScore collected) siteUrl) as [t | message].
  - split; [discriminate | discriminate].
  - cbv [try_catch mret outcome_ret].
    destruct (String.eqb message "Unsupported shopping site") eqn:Hmessage.
    + split; [reflexivity | discriminate].
    + split.
      * intros [= ->]. discriminate.
      * intros [= ->]. discriminate.
Qed.

End Handler.

Lemma collected_score_decided_by_accuracy_witness :
  exists collected,
    @Background.collectContextData Sample.host Sample.world = Returns collected
    /\ Background.collectedScore collected = 0.875%float.
Proof.
  eexists. split; [reflexivity |].
  exact (@collected_score_decided_by_accuracy Sample.host Sample.world _ _ eq_refl eq_refl).
Defined.

Lemma unsupported_message_is_never_reported_witness :
  @Background.getApiEndpoint Sample.host "https://www.walmart.com/store/5260"
  = Returns (Some "https://api.walmart.com/secure-context")
  /\ @Background.onVerifyContext Sample.host Cases.misleading_world (Some Sample.keys)
       "https://www.walmart.com/store/5260"
     = Success {| token := None; consistencyScore := 0 |}.
Proof.
  split; [reflexivity |].
  refine (proj1 (@unsupported_message_is_never_reported Sample.host Cases.misleading_world
                   (Some Sample.keys) "https://www.walmart.com/store/5260" _ eq_refl) _).
  vm_compute. reflexivity.
Defined.

(** ** Invariants of the verification loop *)

Section LoopInvariants.
Import Content Observe.
Local Open Scope list_scope.
Local Open Scope float_scope.

Lemma run_app (inputs1 inputs2 : list input) (s : State) :
  run (inputs1 ++ inputs2) s
  = match run inputs1 s with
    | Some s' => run inputs2 s'
    | None => None
    end.
Proof.
  revert s. induction inputs1 as [| i inputs1 IH]; intros s; [reflexivity |].
  cbn [app run]. destruct (step i s); [apply IH | reflexivity].
Qed.

(** What every step keeps, every run keeps. *)
Lemma run_invariant (P : State -> Prop) :
  (forall i s s', P s -> step i s = Some s' -> P s') ->
  forall inputs s s', P s -> run inputs s = Some s' -> P s'.
Proof.
  intros Hstep. induction inputs as [| i inputs IH]; intros s s' Hs; cbn [run].
  - intros [= <-]. exact Hs.
  - destruct (step i s) as [s1 |] eqn:Hi; [| discriminate].
    apply IH. exact (Hstep i s s1 Hs Hi).
Qed.

Lemma initialise_cases (hostname href : string) :
  initialise hostname href = loaded
  \/ initialise hostname href = startContextVerification loaded.
Proof.
  unfold initialise.
  destruct (getCurrentSite hostname) as [[domain site] |]; [| left; reflexivity].
  destruct (includes href (storePattern site)); [right | left]; reflexivity.
Qed.

Lemma reachable_timers_ok (hostname href : string) (s : State) :
  reachable hostname href s -> timers_ok s.
Proof.
  intros [inputs Hrun]. apply (run_timers_ok inputs (initialise hostname href) s); [| exact Hrun].
  destruct (initialise_cases hostname href) as [-> | ->]; reflexivity.
Qed.

(** X8. In every state the script can reach, however often verification was
    started, at most one interval timer is armed, and it is the one the
    script remembers; starting again leaves exactly one. *)
Theorem one_timer_at_most (hostname href : string) (s : State) :
  reachable hostname href s ->
  (List.length (armed s) <= 1)%nat
  /\ (forall id, In id (armed s) <-> verificationInterval s = Some id)
  /\ List.length (armed (startContextVerification s)) = 1%nat.
Proof.
  intros Hreach. pose proof (reachable_timers_ok hostname href s Hreach) as Hok.
  pose proof (start_timers_ok s Hok) as Hstarted.
  unfold timers_ok in Hok, Hstarted.
  split; [| split].
  - rewrite Hok. destruct (verificationInterval s); cbn; lia.
  - intros id. rewrite Hok. destruct (verificationInterval s) as [id' |]; cbn.
    + split; [intros [-> | []]; reflexivity | intros [= ->]; left; reflexivity].
    + split; [intros [] | discriminate].
  - rewrite Hstarted. unfold startContextVerification.
    destruct (verificationInterval s); reflexivity.
Qed.

(** X9. A reply, whatever it is (a failure, a rejected promise, a score below
    the threshold), takes one message off the pending ones and leaves the
    timer as it was: the loop does not stop itself, and the next tick of an
    armed timer sends a new request. *)
Theorem reply_keeps_the_loop (response : outcome Reply) (s s' : State) :
  step (Replied response) s = Some s' ->
  armed s' = armed s
  /\ verificationInterval s' = verificationInterval s
  /\ in_flight s = S (in_flight s')
  /\ (forall id, In id (armed s) ->
        exists s'', step (Tick id) s' = Some s'' /\ in_flight s'' = in_flight s).
Proof.
  cbn [step]. destruct (in_flight s) as [| n] eqn:Hflight; [discriminate |].
  intros [= <-].
  destruct (resume_keeps_timers response (set_in_flight n s)) as (Harmed & Hinterval & Hn).
  split; [exact Harmed |]. split; [exact Hinterval |]. split; [now rewrite Hn |].
  intros id Hid. cbn [step]. rewrite Harmed. cbn [armed set_in_flight].
  assert (Hexists : existsb (Nat.eqb id) (armed s) = true).
  { apply existsb_exists. exists id. split; [exact Hid | apply Nat.eqb_refl]. }
  rewrite Hexists. eexists. split; [reflexivity |].
  cbn [verifyContext_send set_in_flight in_flight]. now rewrite Hn.
Qed.

Lemma page_token_app (effects1 effects2 : list effect) (current : option PageToken) :
  page_token (effects1 ++ effects2) current
  = page_token effects2 (page_token effects1 current).
Proof.
  revert current. induction effects1 as [| e effects1 IH]; intros current; [reflexivity |].
  destruct e; cbn [app page_token]; apply IH.
Qed.

Lemma resume_active_passed (response : outcome Reply) (s : State) (t : Token) :
  activeToken (verifyContext_resume response s) = Some t ->
  (consistencyThreshold <=? consistencyScore t) = true
  /\ page_token (trace (verifyContext_resume response s)) None = Some (as_injected t).
Proof.
  unfold verifyContext_resume.
  destruct response as [[t' | error] | message]; [| discriminate | discriminate].
  destruct (consistencyThreshold <=? consistencyScore t') eqn:Hscore; [| discriminate].
  cbn. intros [= <-]. split; [exact Hscore |].
  rewrite !page_token_app. reflexivity.
Qed.

Lemma start_keeps_token (s : State) :
  activeToken (startContextVerification s) = activeToken s
  /\ trace (startContextVerification s) = trace s.
Proof.
  unfold startContextVerification. destruct (verificationInterval s); split; reflexivity.
Qed.

(** What holds of the active token in every state the script can reach. *)
Definition token_invariant (s : State) : Prop :=
  forall t, activeToken s = Some t ->
    (consistencyThreshold <=? consistencyScore t) = true
    /\ page_token (trace s) None = Some (as_injected t).

Lemma step_token_invariant (i : input) (s s' : State) :
  token_invariant s -> step i s = Some s' -> token_invariant s'.
Proof.
  intros Hs. destruct i as [[] | id | response]; cbn [step].
  - intros [= <-] t. destruct (start_keeps_token s) as [-> ->]. apply Hs.
  - intros [= <-] t. unfold stopContextVerification.
    destruct (verificationInterval s); discriminate.
  - destruct (existsb (Nat.eqb id) (armed s)); intros [= <-]. exact Hs.
  - destruct (in_flight s) as [| n]; intros [= <-] t. apply resume_active_passed.
Qed.

Lemma reachable_token_invariant (hostname href : string) (s : State) :
  reachable hostname href s -> token_invariant s.
Proof.
  intros [inputs Hrun].
  apply (run_invariant token_invariant step_token_invariant inputs
           (initialise hostname href) s); [| exact Hrun].
  intros t. destruct (initialise_cases hostname href) as [-> | ->]; discriminate.
Qed.

(** X10. In every state the script can reach, the active token, if there is
    one, came with a consistency score of at least 0.7. *)
Theorem active_token_passed_threshold (hostname href : string) (s : State) (t : Token) :
  reachable hostname href s ->
  activeToken s = Some t ->
  (0.7 <=? consistencyScore t) = true.
Proof.
  intros Hreach Hactive.
  exact (proj1 (reachable_token_invariant hostname href s Hreach t Hactive)).
Qed.

(** X11. In every state the script can reach with an active token, the
    page holds in window.secureContextToken that token as it reads back from
    its JSON text: the same token string, and the same score when the score
    is finite (a score that is not finite reads back as null). Stopping
    clears the script's token and leaves the page's token as it was, so
    that after a stop in an active state the page still holds the token. *)
Theorem page_token_tracks_active (hostname href : string) (s : State) (t : Token) :
  reachable hostname href s ->
  activeToken s = Some t ->
  page_token (trace s) None = Some (as_injected t)
  /\ page_token_value (as_injected t) = token t
  /\ (is_finite (consistencyScore t) = true ->
      is_zero (consistencyScore t) = false ->
      page_score (as_injected t) = Some (consistencyScore t))
  /\ (is_finite (consistencyScore t) = false -> page_score (as_injected t) = None)
  /\ activeToken (stopContextVerification s) = None
  /\ page_token (trace (stopContextVerification s)) None = Some (as_injected t).
Proof.
  intros Hreach Hactive.
  destruct (reachable_token_invariant hostname href s Hreach t Hactive) as [_ Hpage].
  split; [exact Hpage |]. split; [reflexivity |].
  split.
  { intros Hfinite Hzero. unfold as_injected. cbn [page_score].
    rewrite Hfinite, Hzero. reflexivity. }
  split.
  { intros Hfinite. unfold as_injected. cbn [page_score]. rewrite Hfinite. reflexivity. }
  split; [reflexivity |].
  unfold stopContextVerification.
  destruct (verificationInterval s); cbn; rewrite page_token_app, Hpage; reflexivity.
Qed.

Lemma ticks_accumulate (n : nat) (s : State) :
  existsb (Nat.eqb 1) (armed s) = true ->
  exists s', run (repeat (Tick 1) n) s = Some s'
             /\ in_flight s' = (n + in_flight s)%nat
             /\ activeToken s' = activeToken s.
Proof.
  revert s. induction n as [| n IH]; intros s Harmed.
  - exists s. repeat split.
  - cbn [repeat run step]. rewrite Harmed.
    destruct (IH (verifyContext_send s) Harmed) as (s' & Hrun & Hflight & Htoken).
    exists s'. split; [exact Hrun |]. split; [| exact Htoken].
    rewrite Hflight. cbn. lia.
Qed.

(** X12. Nothing makes a tick wait for the reply to the previous request: after
    a start and n ticks without a reply, n + 1 requests are pending at
    once, for every n. *)
Theorem requests_can_overlap (n : nat) :
  in_flight <$> run (NavigationChange true :: repeat (Tick 1) n) loaded = Some (S n).
Proof.
  cbn [run step].
  destruct (ticks_accumulate n (startContextVerification loaded) eq_refl)
    as (s' & -> & Hflight & _).
  cbn. rewrite Hflight. cbn. f_equal. lia.
Qed.

End LoopInvariants.

Lemma one_timer_at_most_witness :
  List.length
    (Content.armed
       (Content.startContextVerification (Content.startContextVerification Content.loaded)))
  = 1%nat.
Proof.
  refine (proj2 (proj2 (one_timer_at_most "example.com" "https://example.com/"
                          (Content.startContextVerification Content.loaded) _))).
  exists [Content.NavigationChange true]. reflexivity.
Defined.

Lemma reply_keeps_the_loop_witness :
  exists s',
    Content.step (Content.Replied (Returns (Failure "Failed to obtain ZKP token")))
      (Content.startContextVerification Content.loaded) = Some s'
    /\ Content.armed s' = [1%nat]
    /\ Content.verificationInterval s' = Some 1%nat.
Proof.
  eexists. split; [reflexivity |].
  destruct (reply_keeps_the_loop (Returns (Failure "Failed to obtain ZKP token"))
              (Content.startContextVerification Content.loaded) _ eq_refl)
    as (Harmed & Hinterval & _).
  split; [exact Harmed | exact Hinterval].
Defined.

Lemma active_token_passed_threshold_witness :
  (0.7 <=? consistencyScore Sample.active)%float = true.
Proof.
  refine (active_token_passed_threshold "www.walmart.com"
            "https://www.walmart.com/store/5260"
            (Content.verifyContext_resume (Returns (Success Sample.active))
               (Content.set_in_flight 0 (Content.startContextVerification Content.loaded)))
            Sample.active _ eq_refl).
  exists [Content.Replied (Returns (Success Sample.active))]. reflexivity.
Defined.

Lemma page_token_tracks_active_witness :
  let s := Content.verifyContext_resume (Returns (Success Sample.active))
             (Content.set_in_flight 0 (Content.startContextVerification Content.loaded)) in
  Observe.page_token (Content.trace s) None
  = Some {| Observe.page_token_value := Some "t0"; Observe.page_score := Some 0.875%float |}
  /\ Content.activeToken (Content.stopContextVerification s) = None
  /\ Observe.page_token (Content.trace (Content.stopContextVerification s)) None
     = Some {| Observe.page_token_value := Some "t0"; Observe.page_score := Some 0.875%float |}.
Proof.
  cbv zeta.
  destruct (page_token_tracks_active "www.walmart.com" "https://www.walmart.com/store/5260"
              (Content.verifyContext_resume (Returns (Success Sample.active))
                 (Content.set_in_flight 0
                    (Content.startContextVerification Content.loaded)))
              Sample.active) as (Hpage & _ & _ & _ & Hnone & Hstale).
  - exists [Content.Replied (Returns (Success Sample.active))]. reflexivity.
  - reflexivity.
  - split; [exact Hpage |]. split; [exact Hnone | exact Hstale].
Defined.

(** ** More on the fetch interceptor *)

Section InterceptorMore.
Context `{Host}.
Import Content.

Lemma headers_of_some (headers : gmap string (option string)) (others : list (string * string)) :
  headers_of (Some {| init_headers := Some headers; init_others := others |}) = headers.
Proof. reflexivity. Qed.

Lemma attest_twice (domain : string) (t : Token) (headers : gmap string (option string)) :
  let attest m :=
    <["X-Shopping-Site" := Some domain]>
      (<["X-Context-Consistency-Score" := Some (Number_toString (consistencyScore t))]>
         (<["X-Secure-Context-Token" := token t]> m)) in
  attest (attest headers) = attest headers.
Proof.
  cbv zeta. apply map_eq. intros name.
  rewrite !lookup_insert. repeat case_decide; reflexivity.
Qed.

(** X13. Passing the arguments through the wrapper a second time, with the same
    active token, changes nothing: what the wrapper hands on is a fixed
    point of the wrapper. *)
Theorem intercept_twice (hostname : string) (activeToken : option Token)
    (args : string * option RequestInit) :
  intercept hostname activeToken (intercept hostname activeToken args)
  = intercept hostname activeToken args.
Proof.
  destruct args as [url init].
  destruct (getCurrentSite hostname) as [[domain site] |] eqn:Hsite.
  - destruct (includes url (apiPattern site)) eqn:Hurl.
    + rewrite (intercept_matching hostname url init activeToken domain site Hsite Hurl).
      rewrite (intercept_matching hostname url _ activeToken domain site Hsite Hurl).
      rewrite headers_of_some. cbn [fmap option_fmap option_map init_others default].
      destruct activeToken as [t |]; [| reflexivity].
      pose proof (attest_twice domain t (headers_of init)) as Htwice. cbv zeta in Htwice.
      rewrite Htwice. reflexivity.
    + assert (Hno : forall domain' site',
                getCurrentSite hostname = Some (domain', site') ->
                includes url (apiPattern site') = false).
      { intros domain' site' Hsite'. rewrite Hsite in Hsite'.
        injection Hsite' as <- <-. exact Hurl. }
      rewrite (intercept_other_site hostname url init activeToken Hno).
      exact (intercept_other_site hostname url init activeToken Hno).
  - assert (Hno : forall domain' site',
              getCurrentSite hostname = Some (domain', site') ->
              includes url (apiPattern site') = false).
    { intros domain' site' Hsite'. rewrite Hsite in Hsite'. discriminate. }
    rewrite (intercept_other_site hostname url init activeToken Hno).
    exact (intercept_other_site hostname url init activeToken Hno).
Qed.

(** The two models of the wrapper agree where the first argument is a URL
    string and the headers, if any, a plain object. *)
Lemma wrapper_on_plain (message hostname url : string) (activeToken : option Token)
    (init : option RequestInit) :
  Wrapper.fetch_wrapper message hostname activeToken
    (Wrapper.UrlString url, Wrapper.of_plain <$> init)
  = Returns (Wrapper.UrlString (fst (intercept hostname activeToken (url, init))),
             Wrapper.of_plain <$> snd (intercept hostname activeToken (url, init))).
Proof.
  unfold Wrapper.fetch_wrapper, intercept. cbn [fst snd].
  destruct (getCurrentSite hostname) as [[domain site] |]; [| reflexivity].
  destruct (includes url (apiPattern site)); [| reflexivity].
  destruct init as [[[headers |] others] |]; destruct activeToken as [t |]; reflexivity.
Qed.

(** C8 (where the code departs from it). On a page of a supported site the
    wrapper calls includes on the first argument of every call. When that
    argument is a Request or a URL object, the call fails with a TypeError
    and never reaches the original fetch, with or without an active token
    and whatever the URL. And when the URL string matches and a token is
    active but the headers of the call are a Headers instance or an array
    of pairs, the wrapper only sets properties on that object: every header
    that fetch sends is what it was before, so that no attestation header
    is attached. *)
Theorem wrapper_misses_objects (message hostname domain : string) (site : Site) :
  getCurrentSite hostname = Some (domain, site) ->
  (forall activeToken url init,
     Wrapper.fetch_wrapper message hostname activeToken (Wrapper.RequestObject url, init)
     = Throws message
     /\ Wrapper.fetch_wrapper message hostname activeToken (Wrapper.URLObject url, init)
        = Throws message)
  /\ (forall t url entries props others,
        includes url (apiPattern site) = true ->
        exists sent,
          Wrapper.fetch_wrapper message hostname (Some t)
            (Wrapper.UrlString url,
             Some {| Wrapper.headers := Some (Wrapper.HeadersInstance entries props);
                     Wrapper.others := others |})
          = Returns (Wrapper.UrlString url,
                     Some {| Wrapper.headers := Some sent; Wrapper.others := others |})
          /\ forall name,
               Wrapper.header_read name sent
               = Wrapper.header_read name (Wrapper.HeadersInstance entries props))
  /\ (forall t url pairs props others,
        includes url (apiPattern site) = true ->
        exists sent,
          Wrapper.fetch_wrapper message hostname (Some t)
            (Wrapper.UrlString url,
             Some {| Wrapper.headers := Some (Wrapper.PairArray pairs props);
                     Wrapper.others := others |})
          = Returns (Wrapper.UrlString url,
                     Some {| Wrapper.headers := Some sent; Wrapper.others := others |})
          /\ forall name,
               Wrapper.header_read name sent
               = Wrapper.header_read name (Wrapper.PairArray pairs props)).
Proof.
  intros Hsite. unfold Wrapper.fetch_wrapper. rewrite Hsite. cbn [fst snd].
  split; [| split].
  - intros activeToken url init. split; reflexivity.
  - intros t url entries props others ->. eexists. split; [reflexivity |].
    intros name. reflexivity.
  - intros t url pairs props others ->. eexists. split; [reflexivity |].
    intros name. reflexivity.
Qed.

(** X14. The test on the URL is containment: on a page of a supported site,
    with a token active, every call whose URL string has the apiPattern of
    the site anywhere in it, in the host or after it, and whose headers are
    missing or a plain object, is sent on with the token in its
    X-Secure-Context-Token header. *)
Theorem token_sent_wherever_pattern_occurs (message hostname domain before after : string)
    (site : Site) (t : Token) (init : option Wrapper.Init) :
  getCurrentSite hostname = Some (domain, site) ->
  Wrapper.plain_or_absent init ->
  exists sent,
    Wrapper.fetch_wrapper message hostname (Some t)
      (Wrapper.UrlString (before ++ apiPattern site ++ after), init)
    = Returns (Wrapper.UrlString (before ++ apiPattern site ++ after), Some sent)
    /\ (Wrapper.headers sent ≫= Wrapper.header_read "X-Secure-Context-Token")
       = Some (token t).
Proof.
  intros Hsite Hplain. unfold Wrapper.fetch_wrapper. rewrite Hsite. cbn [fst snd].
  rewrite (includes_intro before (apiPattern site) after).
  eexists. split; [reflexivity |].
  cbn [Wrapper.headers mbind option_bind].
  destruct init as [[[[props | entries props | pairs props] |] others] |];
    cbn in Hplain; try contradiction;
    cbn [from_option id Wrapper.headers Wrapper.set_property Wrapper.header_read];
    (rewrite !lookup_insert_ne by discriminate; apply lookup_insert_eq).
Qed.

End InterceptorMore.

Lemma wrapper_misses_objects_witness :
  @Wrapper.fetch_wrapper Sample.host "args[0].includes is not a function"
    "www.walmart.com" None
    (Wrapper.RequestObject "https://api.walmart.com/secure-context/orders", None)
  = Throws "args[0].includes is not a function"
  /\ exists sent,
       @Wrapper.fetch_wrapper Sample.host "args[0].includes is not a function"
         "www.walmart.com" (Some Sample.active)
         (Wrapper.UrlString "https://api.walmart.com/secure-context/orders",
          Some {| Wrapper.headers := Some (Wrapper.HeadersInstance [] ∅);
                  Wrapper.others := [] |})
       = Returns (Wrapper.UrlString "https://api.walmart.com/secure-context/orders",
                  Some {| Wrapper.headers := Some sent; Wrapper.others := [] |})
       /\ Wrapper.header_read "X-Secure-Context-Token" sent = None.
Proof.
  destruct (@wrapper_misses_objects Sample.host "args[0].includes is not a function"
              "www.walmart.com" "walmart.com"
              {| Content.apiPattern := "api.walmart.com"; Content.storePattern := "/store/" |}
              eq_refl) as (Hobjects & Hinstance & _).
  split.
  - exact (proj1 (Hobjects None "https://api.walmart.com/secure-context/orders" None)).
  - destruct (Hinstance Sample.active "https://api.walmart.com/secure-context/orders"
                [] ∅ [] eq_refl) as (sent & Hsent & Hread).
    exists sent. split; [exact Hsent |]. rewrite Hread. reflexivity.
Defined.

Lemma token_sent_wherever_pattern_occurs_witness :
  exists sent,
    @Wrapper.fetch_wrapper Sample.host "args[0].includes is not a function"
      "www.walmart.com" (Some Sample.active)
      (Wrapper.UrlString "https://example.org/?next=api.walmart.com", None)
    = Returns (Wrapper.UrlString "https://example.org/?next=api.walmart.com", Some sent)
    /\ (Wrapper.headers sent ≫= Wrapper.header_read "X-Secure-Context-Token")
       = Some (Some "t0").
Proof.
  exact (@token_sent_wherever_pattern_occurs Sample.host
           "args[0].includes is not a function" "www.walmart.com" "walmart.com"
           "https://example.org/?next=" ""
           {| Content.apiPattern := "api.walmart.com"; Content.storePattern := "/store/" |}
           Sample.active None eq_refl I).
Defined.

(** ** The popup *)

Section PopupProperties.
Context `{Host}.
Import Popup.
Local Open Scope list_scope.

Ltac lay_open :=
  cbn [flatten flat_map unfold_effect app showError updateStatusWithAnimation
       updateStatus_catch In dot text location verified not_in_store failed].

(** X15. The popup shows Context Verified exactly when the URL of the active tab
    contains walmart.com/store/ and the reply says success; it looks at
    nothing else in the reply, neither the token nor the score. *)
Theorem popup_verified_iff (w : World) :
  In (SetText statusText "Context Verified") (flatten (updateStatus w))
  <-> exists url t,
        tab_url w = Returns url
        /\ includes url "walmart.com/store/" = true
        /\ reply w = Returns (Success t).
Proof.
  unfold updateStatus.
  destruct (tab_url w) as [url | message].
  - destruct (includes url "walmart.com/store/") eqn:Hstore.
    + destruct (reply w) as [[t | error] | message]; lay_open.
      * split; [intros _; exists url, t; repeat split; exact Hstore | tauto].
      * split; [intuition discriminate | intros (? & ? & _ & _ & [=])].
      * split; [intuition discriminate | intros (? & ? & _ & _ & [=])].
    + lay_open. split; [intuition discriminate |].
      intros (url' & t & [= <-] & Hyes & _). rewrite Hstore in Hyes. discriminate.
  - lay_open. split; [intuition discriminate | intros (? & ? & [=] & _)].
Qed.

(** X16. The popup and the content script judge the same reply differently: a
    success reply whose score is below the threshold, which the content
    script turns into a failure without an active token, is shown by the
    popup as verified, with the active dot. *)
Theorem popup_ignores_score (w : World) (url : string) (t : Token) (s : Content.State) :
  tab_url w = Returns url ->
  includes url "walmart.com/store/" = true ->
  reply w = Returns (Success t) ->
  (Content.consistencyThreshold <=? consistencyScore t)%float = false ->
  In (SetClass statusDot "status-dot active") (flatten (updateStatus w))
  /\ In (SetText statusText "Context Verified") (flatten (updateStatus w))
  /\ In (SetText locationStatus "Location: Verified In-Store") (flatten (updateStatus w))
  /\ Content.activeToken (Content.verifyContext_resume (reply w) s) = None.
Proof.
  intros Hurl Hstore Hreply Hscore.
  unfold updateStatus. rewrite Hurl, Hstore, Hreply. lay_open.
  repeat split; [tauto | tauto | tauto |].
  unfold Content.verifyContext_resume. rewrite Hscore. reflexivity.
Qed.

(** X17. The popup asks for a verification exactly when the URL of the active
    tab contains walmart.com/store/: on the store pages of the five other
    sites, and when the tab cannot be read, no message is sent. *)
Theorem message_sent_iff_walmart_store (w : World) :
  In (SendMessage "VERIFY_CONTEXT") (flatten (updateStatus w))
  <-> exists url, tab_url w = Returns url /\ includes url "walmart.com/store/" = true.
Proof.
  unfold updateStatus.
  destruct (tab_url w) as [url | message].
  - destruct (includes url "walmart.com/store/") eqn:Hstore.
    + split; [intros _; exists url; split; [reflexivity | exact Hstore] |].
      intros _. cbn [flatten flat_map unfold_effect app In]. left. reflexivity.
    + lay_open. split; [intuition discriminate |].
      intros (url' & [= <-] & Hyes). rewrite Hstore in Hyes. discriminate.
  - lay_open. split; [intuition discriminate | intros (? & [=] & _)].
Qed.

(** X18. Every failure of the status update shows its cause: the text of the
    error element is the error of the failure reply, or the message of the
    error that was thrown, and the status is Verification Failed. *)
Theorem status_failure_shows_cause (w : World) (url message : string) :
  tab_url w = Returns url ->
  includes url "walmart.com/store/" = true ->
  reply w = Returns (Failure message) \/ reply w = Throws message ->
  In (SetText errorText message) (flatten (updateStatus w))
  /\ In (SetText statusText "Verification Failed") (flatten (updateStatus w)).
Proof.
  intros Hurl Hstore Hreply. unfold updateStatus. rewrite Hurl, Hstore.
  destruct Hreply as [-> | ->]; lay_open; tauto.
Qed.

Definition revoke_request (publicKey : option JSON.value) : Background.Request :=
  {| Background.method := "POST";
     Background.headers := [("Content-Type", "application/json")];
     Background.body := publicKey_body publicKey |}.

(** X19. Revocation clears the local storage exactly when the user confirmed,
    the stored key could be read and the server answered the revocation
    request with success; the extension is reloaded exactly when, besides,
    the clearing succeeded. Without confirmation nothing at all is done, and
    whatever goes wrong, the only error text shown is Failed to revoke
    device. *)
Theorem revoke_clears_storage_iff (w : World) :
  (In StorageClear (flatten (revokeDevice w))
   <-> confirm w = true
       /\ exists publicKey,
            storage_get w = Returns publicKey
            /\ fetch_ok w (API_ENDPOINT ++ "/revoke-device")%string
                 (revoke_request publicKey) = Returns true)
  /\ (In Reload (flatten (revokeDevice w))
      <-> In StorageClear (flatten (revokeDevice w))
          /\ exists done, storage_clear w = Returns done)
  /\ (confirm w = false -> revokeDevice w = [])
  /\ (forall message,
        In (SetText errorText message) (flatten (revokeDevice w)) ->
        message = "Failed to revoke device").
Proof.
  unfold revokeDevice, revoke_request.
  destruct (confirm w); cbn [negb].
  - destruct (storage_get w) as [publicKey | failure].
    + cbv zeta.
      destruct (fetch_ok w _ _) as [[] | failure] eqn:Hfetch.
      * destruct (storage_clear w) as [done | failure]; lay_open;
          (split; [| split; [| split]]).
        -- split; [intros _ | tauto].
           split; [reflexivity | exists publicKey; split; [reflexivity | exact Hfetch]].
        -- split; [intros _ | tauto].
           split; [tauto | exists done; reflexivity].
        -- discriminate.
        -- intros message Hin. intuition discriminate.
        -- split; [intros _ | tauto].
           split; [reflexivity | exists publicKey; split; [reflexivity | exact Hfetch]].
        -- split; [intuition discriminate | intros [_ [done Hdone]]; discriminate].
        -- discriminate.
        -- intros message Hin. intuition discriminate.
      * lay_open. split; [| split; [| split]].
        -- split; [intuition discriminate |].
           intros (_ & publicKey' & Hkey & Hyes).
           injection Hkey as <-. rewrite Hfetch in Hyes. discriminate.
        -- split; [intuition discriminate | intros [Hclear _]; intuition discriminate].
        -- discriminate.
        -- intros message Hin. intuition congruence.
      * lay_open. split; [| split; [| split]].
        -- split; [intuition discriminate |].
           intros (_ & publicKey' & Hkey & Hyes).
           injection Hkey as <-. rewrite Hfetch in Hyes. discriminate.
        -- split; [intuition discriminate | intros [Hclear _]; intuition discriminate].
        -- discriminate.
        -- intros message Hin. intuition congruence.
    + lay_open. split; [| split; [| split]].
      * split; [intuition discriminate | intros (_ & publicKey & Hkey & _); discriminate].
      * split; [intuition discriminate | intros [Hclear _]; intuition discriminate].
      * discriminate.
      * intros message Hin. intuition congruence.
  - lay_open. split; [| split; [| split]].
    + split; [intros [] | intros [Hconfirm _]; discriminate].
    + split; [intros [] | intros [[] _]].
    + reflexivity.
    + intros message [].
Qed.

(** X20. When nothing is stored under publicKey, a confirmed revocation still
    sends its request, to the Walmart endpoint, with the empty object as
    its body. *)
Theorem revoke_without_key_sends_empty_body (w : World) :
  confirm w = true ->
  storage_get w = Returns None ->
  exists rest,
    revokeDevice w
    = Fetch "https://api.walmart.com/secure-context/revoke-device"
        {| Background.method := "POST";
           Background.headers := [("Content-Type", "application/json")];
           Background.body := "{}" |} :: rest.
Proof.
  intros Hconfirm Hstored. unfold revokeDevice. rewrite Hconfirm, Hstored.
  cbn [negb]. cbv zeta. eexists. reflexivity.
Qed.

End PopupProperties.

Lemma popup_ignores_score_witness :
  In (Popup.SetText Popup.statusText "Context Verified")
     (Popup.flatten (Popup.updateStatus Cases.popup_world))
  /\ Content.activeToken
       (Content.verifyContext_resume (Popup.reply Cases.popup_world) Content.loaded)
     = None.
Proof.
  destruct (popup_ignores_score Cases.popup_world "https://www.walmart.com/store/5260"
              {| token := Some "t0"; consistencyScore := 0.5 |} Content.loaded
              eq_refl eq_refl eq_refl eq_refl) as (_ & Htext & _ & Hnone).
  split; [exact Htext | exact Hnone].
Defined.

Lemma status_failure_shows_cause_witness :
  In (Popup.SetText Popup.errorText "Device key pair not initialized")
     (Popup.flatten (Popup.updateStatus Cases.popup_without_key)).
Proof.
  refine (proj1 (status_failure_shows_cause Cases.popup_without_key
                   "https://www.walmart.com/store/5260"
                   "Device key pair not initialized" eq_refl eq_refl _)).
  left. reflexivity.
Defined.

Lemma revoke_without_key_sends_empty_body_witness :
  exists rest,
    @Popup.revokeDevice Sample.host Cases.popup_world
    = Popup.Fetch "https://api.walmart.com/secure-context/revoke-device"
        {| Background.method := "POST";
           Background.headers := [("Content-Type", "application/json")];
           Background.body := "{}" |} :: rest.
Proof.
  exact (@revoke_without_key_sends_empty_body Sample.host Cases.popup_world
           eq_refl eq_refl).
Defined.
